(** * chiro.js: the Node connection layer

    A shallow embedding of the [Node] class (connection supervisor, track-event
    state machine and outbound sender) together with the parts of the
    JavaScript runtime its methods observe, and the properties of the
    natural-language specification stated and settled over it. *)

From stdpp Require Import base strings gmap list pretty numbers.
From Stdlib Require Import String Ascii.

Set Warnings "-register-all".
Open Scope Z_scope.

(** ** The JavaScript values [send] can receive *)

Module Js.

(** The three error classes the code meets. *)
Inductive JsError :=
| Error (message : string)
| TypeError (message : string)
| RangeError (message : string).

(** Outcome of evaluating an expression or a statement list. *)
Inductive Completion (A : Type) :=
| Normal (a : A)
| Throw (e : JsError).
Arguments Normal {A} a.
Arguments Throw {A} e.

(** The integers every one of which a double holds exactly:
    [Number.isSafeInteger]. *)
Definition is_safe (z : Z) : bool := Z.abs z <=? 9007199254740991.

(** How Number::toString starts on a finite number: with a digit or with
    the minus sign. *)
Definition starts_numeral (s : string) : bool :=
  match s with
  | String c _ =>
      Ascii.eqb c "-"
      || ((48 <=? N_of_ascii c)%N && (N_of_ascii c <=? 57)%N)
  | EmptyString => false
  end.

(** Numbers.  [Integral z] is a safe integer (0 stands for both zeros,
    which no code here tells apart); Number::toString prints it digit by
    digit.  [Inexact text] is any other finite double, one with a fraction
    or beyond the safe integers, known by the text Number::toString gives
    it (1e21 is [Inexact "1e+21"]). *)
Inductive JsNumber :=
| NaN
| Infinity (negative : bool)
| Integral (z : Z) (safe : is_safe z = true)
| Inexact (text : string) (numeral : starts_numeral text = true).

(** [data : unknown].  Values are finite trees of plain data: an object lists
    its own enumerable properties in enumeration order and carries no
    [toJSON] method; functions and symbols are opaque. *)
Inductive JsValue :=
| JUndefined
| JNull
| JBool (b : bool)
| JNumber (n : JsNumber)
| JBigInt (z : Z)
| JString (s : string)
| JSymbol (description : string)
| JFunction (name : string)
| JArray (elements : list JsValue)
| JObject (properties : list (string * JsValue)).

(** [!!v]: undefined, null, false, NaN, 0, 0n and the empty string are
    falsy, every other value is truthy. *)
Definition ToBoolean (v : JsValue) : bool :=
  match v with
  | JUndefined | JNull => false
  | JBool b => b
  | JNumber NaN => false
  | JNumber (Infinity _) => true
  | JNumber (Integral z _) => negb (z =? 0)
  | JNumber (Inexact _ _) => true
  | JBigInt z => negb (z =? 0)
  | JString s => negb (String.eqb s "")
  | JSymbol _ | JFunction _ | JArray _ | JObject _ => true
  end.

Definition quote : ascii := "034"%char.
Definition backslash : ascii := "092"%char.

Definition hex_digit (n : N) : ascii :=
  match n with
  | 0 => "0" | 1 => "1" | 2 => "2" | 3 => "3" | 4 => "4" | 5 => "5"
  | 6 => "6" | 7 => "7" | 8 => "8" | 9 => "9" | 10 => "a" | 11 => "b"
  | 12 => "c" | 13 => "d" | 14 => "e" | _ => "f"
  end%N%char.

(** One code unit of QuoteJSONString. *)
Definition escape_char (c : ascii) : string :=
  let n := N_of_ascii c in
  if (n =? 8)%N then String backslash "b"
  else if (n =? 9)%N then String backslash "t"
  else if (n =? 10)%N then String backslash "n"
  else if (n =? 12)%N then String backslash "f"
  else if (n =? 13)%N then String backslash "r"
  else if (n =? 34)%N then String backslash (String quote "")
  else if (n =? 92)%N then String backslash (String backslash "")
  else if (n <? 32)%N then
    String backslash
      (String "u" (String "0" (String "0"
         (String (hex_digit (n / 16)) (String (hex_digit (n mod 16)) "")))))
  else String c "".

Fixpoint escape (s : string) : string :=
  match s with
  | EmptyString => ""
  | String c r => escape_char c +:+ escape r
  end.

Definition QuoteJSONString (s : string) : string :=
  String quote (escape s +:+ String quote "").

(** SerializeJSONProperty on a number: Number::toString for a finite one,
    null for the others. *)
Definition number_text (n : JsNumber) : string :=
  match n with
  | NaN | Infinity _ => "null"
  | Integral z _ => pretty z
  | Inexact text _ => text
  end.

Definition BigInt_message : string := "Do not know how to serialize a BigInt".

(** The elements of an array, serialised in order by [f]: an element
    without serialisation prints as null, the first exception ends it. *)
Definition array_items (f : JsValue -> Completion (option string))
  : list JsValue -> Completion (list string) :=
  fix items (l : list JsValue) : Completion (list string) :=
    match l with
    | [] => Normal []
    | x :: r =>
        match f x with
        | Throw e => Throw e
        | Normal o =>
            match items r with
            | Throw e => Throw e
            | Normal ts => Normal (default "null" o :: ts)
            end
        end
    end.

(** The properties of an object, serialised in order by [f]: a property
    without serialisation is left out, the first exception ends it. *)
Definition object_members (f : JsValue -> Completion (option string))
  : list (string * JsValue) -> Completion (list string) :=
  fix members (l : list (string * JsValue)) : Completion (list string) :=
    match l with
    | [] => Normal []
    | (k, x) :: r =>
        match f x with
        | Throw e => Throw e
        | Normal o =>
            match members r with
            | Throw e => Throw e
            | Normal ts =>
                Normal match o with
                       | None => ts
                       | Some t => (QuoteJSONString k +:+ ":" +:+ t) :: ts
                       end
            end
        end
    end.

(** [JSON.stringify(v)] with neither replacer nor indent.  [Normal None] is
    the result [undefined]. *)
Fixpoint JSON_stringify (v : JsValue) : Completion (option string) :=
  match v with
  | JUndefined | JSymbol _ | JFunction _ => Normal None
  | JNull => Normal (Some "null")
  | JBool b => Normal (Some (if b then "true" else "false"))
  | JNumber n => Normal (Some (number_text n))
  | JBigInt _ => Throw (TypeError BigInt_message)
  | JString s => Normal (Some (QuoteJSONString s))
  | JArray elements =>
      match array_items JSON_stringify elements with
      | Throw e => Throw e
      | Normal ts => Normal (Some ("[" +:+ String.concat "," ts +:+ "]"))
      end
  | JObject properties =>
      match object_members JSON_stringify properties with
      | Throw e => Throw e
      | Normal ts => Normal (Some ("{" +:+ String.concat "," ts +:+ "}"))
      end
  end.

(** Whether a BigInt occurs in the value. *)
Fixpoint has_bigint (v : JsValue) : bool :=
  match v with
  | JBigInt _ => true
  | JArray elements => existsb has_bigint elements
  | JObject properties => existsb (fun kv => has_bigint kv.2) properties
  | _ => false
  end.

(** What "the serialiser throws exactly on a BigInt" means for a value. *)
Definition throws_on_bigint (v : JsValue) : Prop :=
  if has_bigint v
  then JSON_stringify v = Throw (TypeError BigInt_message)
  else exists o, JSON_stringify v = Normal o.

(** [s.startsWith(p)] *)
Definition startsWith (p s : string) : bool := String.prefix p s.

(** How a number reads inside a template literal. *)
Definition template_number (o : option Z) : string :=
  match o with
  | Some z => pretty z
  | None => "undefined"
  end.

Definition template_string (o : option string) : string :=
  default "undefined" o.

(** [a >= b] where [b] may be undefined: the comparison with NaN is false. *)
Definition ge_number (a : Z) (b : option Z) : bool :=
  match b with
  | Some z => z <=? a
  | None => false
  end.

End Js.
Import Js.

(** ** Collaborators that the Node drives but does not own *)

Definition TrackData := string.

(** A slot or a queue entry is a track, or null / undefined ([None]). *)
Definition Slot := option TrackData.

Definition truthy {A : Type} (o : option A) : bool :=
  match o with
  | Some _ => true
  | None => false
  end.

Module Queue.

(** Modelled from the spec: the queue container (its class is defined
    outside the file verified here) is an ordered sequence of tracks with
    the two slots [current] and [previous] and the operations [length],
    [shift] and [add]. *)
Record t := mk {
  items : list Slot;
  current : Slot;
  previous : Slot
}.

Definition set_current (x : Slot) (q : t) : t :=
  {| items := items q; current := x; previous := previous q |}.

Definition set_previous (x : Slot) (q : t) : t :=
  {| items := items q; current := current q; previous := x |}.

(** Modelled from the spec: [queue.length], the number of queued entries. *)
Definition length (q : t) : Z := Z.of_nat (List.length (items q)).

(** Modelled from the spec: [queue.shift()] pops the next queued entry; on an
    empty sequence it yields undefined and removes nothing. *)
Definition shift (q : t) : Slot * t :=
  match items q with
  | [] => (None, q)
  | x :: rest =>
      (x, {| items := rest; current := current q; previous := previous q |})
  end.

(** Modelled from the spec: [queue.add(track)] appends to the tail. *)
Definition add (x : Slot) (q : t) : t :=
  {| items := items q ++ [x]; current := current q; previous := previous q |}.

End Queue.

Definition NodeId := nat.
Definition TimerId := nat.

Module Player.

(** The fields of the per-guild player that the Node reads or writes. *)
Record t := mk {
  guild : string;
  node : NodeId;
  playing : bool;
  paused : bool;
  trackRepeat : bool;
  queueRepeat : bool;
  queue : Queue.t
}.

Definition set_playing (b : bool) (p : t) : t :=
  {| guild := guild p; node := node p; playing := b; paused := paused p;
     trackRepeat := trackRepeat p; queueRepeat := queueRepeat p;
     queue := queue p |}.

Definition set_paused (b : bool) (p : t) : t :=
  {| guild := guild p; node := node p; playing := playing p; paused := b;
     trackRepeat := trackRepeat p; queueRepeat := queueRepeat p;
     queue := queue p |}.

Definition set_queue (q : Queue.t) (p : t) : t :=
  {| guild := guild p; node := node p; playing := playing p;
     paused := paused p; trackRepeat := trackRepeat p;
     queueRepeat := queueRepeat p; queue := q |}.

End Player.

(** ** Protocol constants *)

Module WSOpCodes.
Definition HELLO : Z := 0.
Definition VOICE_STATE_UPDATE : Z := 1.
Definition IDENTIFY : Z := 10.
End WSOpCodes.

Module WSEvents.
Definition READY : string := "READY".
Definition TRACK_ADD : string := "TRACK_ADD".
Definition TRACKS_ADD : string := "TRACKS_ADD".
Definition TRACK_START : string := "TRACK_START".
Definition TRACK_FINISH : string := "TRACK_FINISH".
Definition TRACK_ERROR : string := "TRACK_ERROR".
Definition QUEUE_END : string := "QUEUE_END".
Definition QUEUE_STATE_UPDATE : string := "QUEUE_STATE_UPDATE".
Definition VOICE_CONNECTION_READY : string := "VOICE_CONNECTION_READY".
Definition VOICE_CONNECTION_ERROR : string := "VOICE_CONNECTION_ERROR".
Definition VOICE_CONNECTION_DISCONNECT : string := "VOICE_CONNECTION_DISCONNECT".
Definition AUDIO_PLAYER_ERROR : string := "AUDIO_PLAYER_ERROR".
Definition AUDIO_PLAYER_STATUS : string := "AUDIO_PLAYER_STATUS".
End WSEvents.

(** ** Payloads, signals and calls that leave the Node *)

Module Payload.

(** The field of [payload.d] that the track handler reads. *)
Record data := mk_data {
  guild_id : option string
}.

(** An inbound frame once decoded: [{ op?, t?, d? }]. *)
Record payload := mk {
  op : option Z;
  t : option string;
  d : option data
}.

End Payload.

Abbreviation Payload := Payload.payload.

Module Event.

(** [manager.emit(name, ...)].  A Node argument is its reference, a Player
    argument the guild that keys it in the registry. *)
Inductive t :=
| nodeCreate (n : NodeId)
| nodeConnect (n : NodeId)
| nodeDisconnect (n : NodeId) (code : Z) (reason : string)
| nodeReconnect (n : NodeId)
| nodeError (n : NodeId) (e : JsError)
| nodeDestroy (n : NodeId)
| trackStart (guild : string) (track : Slot) (p : Payload)
| trackEnd (guild : string) (track : Slot)
| trackError (p : Payload)
| queueEnd (guild : string) (p : Payload)
| nodeUnknownEvent (p : Payload).

End Event.

(** What a method does to the outside, in program order. *)
Inductive Effect :=
| Emit (s : Event.t)
| PlayerDestroy (guild : string)
| PlayerPlay (guild : string)
| SocketClose (code : Z) (reason : string)
| SocketRemoveAllListeners
| SocketNew (address : string)
| SocketSend (frame : string).

(** ** The Node and its surroundings *)

Inductive ReadyState := CONNECTING | OPEN | CLOSING | CLOSED.

Record WebSocket := {
  readyState : ReadyState;
  url : string;
  Authorization : option string;
  client_id : option string;
  listeners : list string
}.

(** [this.options] as its keys read: a key that is missing and a key that
    holds undefined both read as undefined. *)
Record NodeOptions := {
  host : option string;
  port : option Z;
  password : option string;
  secure : option bool;
  identifier : option string;
  retryAmount : option Z;
  retryDelay : option Z;
  requestTimeout : option Z
}.

(** A key of an object literal: missing, or there with a value, which may
    be undefined. *)
Inductive Property (A : Type) :=
| absent
| present (value : option A).
Arguments absent {A}.
Arguments present {A} value.

(** The [options] argument of [new Node(options)], key by key. *)
Record GivenOptions := {
  given_host : Property string;
  given_port : Property Z;
  given_password : Property string;
  given_secure : Property bool;
  given_identifier : Property string;
  given_retryAmount : Property Z;
  given_retryDelay : Property Z;
  given_requestTimeout : Property Z
}.

(** The instance fields.  [manager] is left out: there is one Manager, the
    one held by the static [Node._manager]. *)
Record Node := {
  options : NodeOptions;
  socket : option WebSocket;
  reconnectTimeout : option TimerId;
  reconnectAttempts : Z
}.

Definition set_socket (s : option WebSocket) (n : Node) : Node :=
  {| options := options n; socket := s;
     reconnectTimeout := reconnectTimeout n;
     reconnectAttempts := reconnectAttempts n |}.

Definition set_reconnectTimeout (x : option TimerId) (n : Node) : Node :=
  {| options := options n; socket := socket n; reconnectTimeout := x;
     reconnectAttempts := reconnectAttempts n |}.

Definition set_reconnectAttempts (a : Z) (n : Node) : Node :=
  {| options := options n; socket := socket n;
     reconnectTimeout := reconnectTimeout n; reconnectAttempts := a |}.

(** A pending [setTimeout]: the Node whose reconnect closure it will run and
    the delay it was armed with. *)
Record Timer := {
  owner : NodeId;
  delay : option Z
}.

(** Everything a method of a Node reaches besides the Node itself: the
    Manager ([manager.node], [manager.players], [manager.options.clientID]),
    the event loop's pending timers, and the trace of effects so far. *)
Record Env := {
  manager_node : option NodeId;
  players : list (string * Player.t);
  clientID : option string;
  timers : gmap TimerId Timer;
  next_timer : TimerId;
  trace : list Effect
}.

Definition set_manager_node (x : option NodeId) (e : Env) : Env :=
  {| manager_node := x; players := players e; clientID := clientID e;
     timers := timers e; next_timer := next_timer e; trace := trace e |}.

Definition set_players (ps : list (string * Player.t)) (e : Env) : Env :=
  {| manager_node := manager_node e; players := ps; clientID := clientID e;
     timers := timers e; next_timer := next_timer e; trace := trace e |}.

Definition set_timers (ts : gmap TimerId Timer) (e : Env) : Env :=
  {| manager_node := manager_node e; players := players e;
     clientID := clientID e; timers := ts; next_timer := next_timer e;
     trace := trace e |}.

Definition set_next_timer (x : TimerId) (e : Env) : Env :=
  {| manager_node := manager_node e; players := players e;
     clientID := clientID e; timers := timers e; next_timer := x;
     trace := trace e |}.

Definition set_trace (tr : list Effect) (e : Env) : Env :=
  {| manager_node := manager_node e; players := players e;
     clientID := clientID e; timers := timers e; next_timer := next_timer e;
     trace := tr |}.

(** Appending to the trace. *)
Definition perform (fx : list Effect) (e : Env) : Env :=
  set_trace (trace e ++ fx) e.

(** [this.manager.emit(...)] *)
Definition emit (s : Event.t) (e : Env) : Env := perform [Emit s] e.

(** [setTimeout(callback, delay)] with the reconnect closure of [this]. *)
Definition setTimeout (this : NodeId) (ms : option Z) (e : Env) : TimerId * Env :=
  let id := next_timer e in
  (id, set_next_timer (S id)
         (set_timers (<[id := {| owner := this; delay := ms |}]> (timers e)) e)).

(** [clearTimeout(handle)]; clearing undefined does nothing. *)
Definition clearTimeout (handle : option TimerId) (e : Env) : Env :=
  match handle with
  | Some id => set_timers (delete id (timers e)) e
  | None => e
  end.

(** Modelled from the spec: [manager.destroyNode()] (the Manager class is
    defined outside the file verified here) removes the Node from the
    Manager's slot. *)
Definition destroyNode (e : Env) : Env := set_manager_node None e.

(** The heap of Node objects, the static [Node._manager] (set or not), and
    the environment all Nodes share. *)
Record World := {
  objects : gmap NodeId Node;
  next_object : NodeId;
  static_manager : bool;
  env : Env
}.

(** ** The methods of [Node]

    A method takes the reference [this], the Node's fields and the
    environment, and returns the fields and the environment it leaves. *)

(** [get connected()] *)
Definition connected (n : Node) : bool :=
  match socket n with
  | Some ws =>
      match readyState ws with
      | OPEN => true
      | _ => false
      end
  | None => false
  end.

(** [x ? a : b] on an optional boolean. *)
Definition truthy_bool (o : option bool) : bool := default false o.

(** The address [connect] dials. *)
Definition address (o : NodeOptions) : string :=
  "ws" +:+ (if truthy_bool (secure o) then "s" else "") +:+ "://"
  +:+ template_string (host o) +:+ ":" +:+ template_number (port o) +:+ "/".

(** [connect()] *)
Definition connect (this : NodeId) (n : Node) (e : Env) : Node * Env :=
  if connected n then (n, e)
  else
    let ws := {| readyState := CONNECTING;
                 url := address (options n);
                 Authorization := password (options n);
                 client_id := clientID e;
                 listeners := ["open"; "close"; "message"; "error"]%string |} in
    (set_socket (Some ws) n, perform [SocketNew (address (options n))] e).

(** Modelled from the spec: [p.destroy()] (the Player class is defined
    outside the file verified here) is the player's own teardown; it is
    recorded as a call and touches nothing of the Node. *)
Definition player_destroy (p : Player.t) : list Effect :=
  [PlayerDestroy (Player.guild p)].

(** [players.forEach(p => { if (p.node == this) p.destroy(); })], in
    registry order. *)
Definition destroy_players (this : NodeId) (ps : list (string * Player.t))
  : list Effect :=
  flat_map (fun kp : string * Player.t =>
              if decide (Player.node kp.2 = this)
              then player_destroy kp.2
              else []) ps.

(** [destroy()] *)
Definition destroy (this : NodeId) (n : Node) (e : Env) : Node * Env :=
  if negb (connected n) then (n, e)
  else
    let e1 := perform (destroy_players this (players e)) e in
    let e2 := perform [SocketClose 1000 "destroy"; SocketRemoveAllListeners] e1 in
    let n1 := set_socket None n in
    let n2 := set_reconnectAttempts 1 n1 in
    let e3 := clearTimeout (reconnectTimeout n2) e2 in
    let e4 := emit (Event.nodeDestroy this) e3 in
    (n2, destroyNode e4).

Definition exhausted_message (o : NodeOptions) : string :=
  "Unable to connect after " +:+ template_number (retryAmount o) +:+ " attempts.".

Definition null_socket_message : string :=
  "Cannot read properties of null (reading 'removeAllListeners')".

(** The closure [reconnect] hands to [setTimeout]. *)
Definition reconnect_timeout (this : NodeId) (n : Node) (e : Env)
  : Completion unit * (Node * Env) :=
  if ge_number (reconnectAttempts n) (retryAmount (options n)) then
    let e1 := emit (Event.nodeError this (Error (exhausted_message (options n)))) e in
    (Normal tt, destroy this n e1)
  else
    match socket n with
    | None => (Throw (TypeError null_socket_message), (n, e))
    | Some _ =>
        let e1 := perform [SocketRemoveAllListeners] e in
        let n1 := set_socket None n in
        let e2 := emit (Event.nodeReconnect this) e1 in
        let '(n2, e3) := connect this n1 e2 in
        (Normal tt, (set_reconnectAttempts (reconnectAttempts n2 + 1) n2, e3))
    end.

(** [reconnect()] *)
Definition reconnect (this : NodeId) (n : Node) (e : Env) : Node * Env :=
  match socket n with
  | None => (n, e)
  | Some _ =>
      let '(id, e1) := setTimeout this (retryDelay (options n)) e in
      (set_reconnectTimeout (Some id) n, e1)
  end.

(** The event loop runs a pending timer: it leaves the pending set and its
    closure runs.  A handle that is not pending, or is another Node's, does
    nothing here. *)
Definition timeout_fires (id : TimerId) (this : NodeId) (n : Node) (e : Env)
  : Completion unit * (Node * Env) :=
  match timers e !! id with
  | Some tm =>
      if decide (owner tm = this)
      then reconnect_timeout this n (set_timers (delete id (timers e)) e)
      else (Normal tt, (n, e))
  | None => (Normal tt, (n, e))
  end.

(** [open()]: the handle is an object, truthy whenever it is defined. *)
Definition open (this : NodeId) (n : Node) (e : Env) : Node * Env :=
  let e1 := if truthy (reconnectTimeout n)
            then clearTimeout (reconnectTimeout n) e else e in
  (n, emit (Event.nodeConnect this) e1).

(** [close(code, reason)] *)
Definition close (code : Z) (reason : string) (this : NodeId) (n : Node) (e : Env)
  : Node * Env :=
  let e1 := emit (Event.nodeDisconnect this code reason) e in
  if negb (code =? 1000) || negb (String.eqb reason "destroy")
  then reconnect this n e1
  else (n, e1).

(** [error(error)] *)
Definition error (err : option JsError) (this : NodeId) (n : Node) (e : Env)
  : Node * Env :=
  match err with
  | None => (n, e)
  | Some x => (n, emit (Event.nodeError this x) e)
  end.

(** ** The track-event state machine *)

(** [queueEnd(player, payload)] *)
Definition queueEnd (player : Player.t) (payload : Payload)
  : Player.t * list Effect :=
  (player, [Emit (Event.queueEnd (Player.guild player) payload)]).

(** Modelled from the spec: [player.play()] (the Player class is defined
    outside the file verified here) re-invokes playback of the current
    track; it is recorded as a call and leaves the fields read here as they
    are. *)
Definition play (player : Player.t) : list Effect :=
  [PlayerPlay (Player.guild player)].

(** [trackEnd(player, track, payload)]: the player as the method leaves it
    and what it emitted and called. *)
Definition trackEnd (player : Player.t) (track : Slot) (payload : Payload)
  : Player.t * list Effect :=
  let q := Player.queue player in
  if Queue.length q =? 0 then queueEnd player payload
  else if truthy track && Player.trackRepeat player then
    if negb (truthy (Queue.current q)) then queueEnd player payload
    else (player,
          Emit (Event.trackEnd (Player.guild player) track) :: play player)
  else
    let q1 := Queue.set_previous (Queue.current q) q in
    let '(next, q2) := Queue.shift q1 in
    let q3 := Queue.set_current next q2 in
    let player1 := Player.set_queue q3 player in
    if truthy track && Player.queueRepeat player1 then
      if negb (truthy (Queue.current q3)) then queueEnd player1 payload
      else
        let player2 :=
          Player.set_queue (Queue.add (Queue.previous q3) q3) player1 in
        (player2,
         Emit (Event.trackEnd (Player.guild player2) track) :: play player2)
    else if negb (Queue.length q3 =? 0) then
      (player1,
       Emit (Event.trackEnd (Player.guild player1) track) :: play player1)
    else (player1, []).

(** [manager.players.get(id)] *)
Fixpoint players_get (id : option string) (ps : list (string * Player.t))
  : option Player.t :=
  match ps with
  | [] => None
  | (k, p) :: rest =>
      if decide (id = Some k) then Some p else players_get id rest
  end.

(** The registry holds the player by reference: a write to the player is
    seen under its key. *)
Fixpoint players_store (id : option string) (p' : Player.t)
  (ps : list (string * Player.t)) : list (string * Player.t) :=
  match ps with
  | [] => []
  | (k, p) :: rest =>
      if decide (id = Some k) then (k, p') :: rest
      else (k, p) :: players_store id p' rest
  end.

Definition undefined_d_message : string :=
  "Cannot read properties of undefined (reading 'guild_id')".

(** [case name:] of [switch (payload.t)], a strict comparison. *)
Definition is_event (name : string) (t : option string) : bool :=
  match t with
  | Some k => String.eqb k name
  | None => false
  end.

(** [handleTrackEvent(payload)] *)
Definition handleTrackEvent (payload : Payload) (e : Env)
  : Completion unit * Env :=
  match Payload.d payload with
  | None => (Throw (TypeError undefined_d_message), e)
  | Some data =>
      let id := Payload.guild_id data in
      match players_get id (players e) with
      | None => (Normal tt, e)
      | Some player =>
          let track := Queue.current (Player.queue player) in
          if is_event WSEvents.TRACK_START (Payload.t payload) then
            let player1 := Player.set_paused false (Player.set_playing true player) in
            (Normal tt,
             emit (Event.trackStart (Player.guild player1) track payload)
               (set_players (players_store id player1 (players e)) e))
          else if is_event WSEvents.QUEUE_END (Payload.t payload) then
            let '(player1, fx) := trackEnd player track payload in
            (Normal tt,
             perform fx (set_players (players_store id player1 (players e)) e))
          else if is_event WSEvents.TRACK_ERROR (Payload.t payload) then
            let e1 := emit (Event.trackError payload) e in
            let '(player1, fx) := trackEnd player track payload in
            (Normal tt,
             perform fx (set_players (players_store id player1 (players e1)) e1))
          else (Normal tt, emit (Event.nodeUnknownEvent payload) e)
      end
  end.

(** ** The outbound sender *)

(** How the promise returned by [send] settles; [Written] is the promise
    left to the transport's write callback. *)
Inductive Settlement :=
| Resolved (b : bool)
| Rejected (e : JsError)
| Written (frame : string).

Definition improper_data : JsError :=
  Error "Improper data sent to send in the WS.".

Definition undefined_startsWith_message : string :=
  "Cannot read properties of undefined (reading 'startsWith')".

(** [send(data)].  An exception thrown inside the executor rejects the
    promise. *)
Definition send (data : JsValue) (n : Node) (e : Env) : Settlement * Env :=
  match JSON_stringify data with
  | Throw err => (Rejected err, e)
  | Normal stringified =>
      if negb (connected n) then (Resolved false, e)
      else if negb (ToBoolean data) then (Rejected improper_data, e)
      else
        match stringified with
        | None => (Rejected (TypeError undefined_startsWith_message), e)
        | Some frame =>
            if negb (startsWith "{" frame) then (Rejected improper_data, e)
            else (Written frame, perform [SocketSend frame] e)
        end
  end.

(** [error => error ? reject(error) : resolve(true)] *)
Definition write_callback (err : option JsError) : Settlement :=
  match err with
  | Some x => Rejected x
  | None => Resolved true
  end.

(** ** Construction *)

(** One key of [{ key: earlier, ...later }], read back: the spread copies
    every key [later] has, whatever its value, over the one written before
    it. *)
Definition spread {A : Type} (earlier : option A) (later : Property A)
  : option A :=
  match later with
  | absent => earlier
  | present value => value
  end.

(** [{ port: 3000, password: ..., secure: false, retryAmount: 5,
       retryDelay: 30e3, ...options }] *)
Definition with_defaults (random_password : string) (o : GivenOptions)
  : NodeOptions :=
  {| host := spread None (given_host o);
     port := spread (Some 3000) (given_port o);
     password := spread (Some random_password) (given_password o);
     secure := spread (Some false) (given_secure o);
     identifier := spread None (given_identifier o);
     retryAmount := spread (Some 5) (given_retryAmount o);
     retryDelay := spread (Some 30000) (given_retryDelay o);
     requestTimeout := spread None (given_requestTimeout o) |}.

Definition not_initiated : JsError :=
  RangeError "Manager has not been initiated.".

(** [new Node(options)].  [random_password] is what generateRandomPassword()
    would return.  The object under construction is local until the
    constructor stores it; a constructor that returns another object hands
    that one to the caller and the fresh one is never reachable. *)
Definition constructor (o : GivenOptions) (random_password : string) (w : World)
  : Completion NodeId * World :=
  if negb (static_manager w) then (Throw not_initiated, w)
  else
    match manager_node (env w) with
    | Some existing => (Normal existing, w)
    | None =>
        let this := next_object w in
        let fresh := {| options := with_defaults random_password o;
                        socket := None;
                        reconnectTimeout := None;
                        reconnectAttempts := 1 |} in
        (Normal this,
         {| objects := <[this := fresh]> (objects w);
            next_object := S this;
            static_manager := static_manager w;
            env := emit (Event.nodeCreate this)
                     (set_manager_node (Some this) (env w)) |})
    end.

(** [Node.initStaticManager(manager)] *)
Definition initStaticManager (w : World) : World :=
  {| objects := objects w; next_object := next_object w;
     static_manager := true; env := env w |}.

(** Calling a method on the object a reference names. *)
Definition call (m : NodeId -> Node -> Env -> Node * Env) (this : NodeId)
  (w : World) : World :=
  match objects w !! this with
  | Some n =>
      let '(n', e') := m this n (env w) in
      {| objects := <[this := n']> (objects w);
         next_object := next_object w;
         static_manager := static_manager w;
         env := e' |}
  | None => w
  end.

(** Handles are handed out in increasing order: every pending timer has a
    handle below the next one. *)
Definition timers_fresh (e : Env) : Prop :=
  forall id, is_Some (timers e !! id) -> (id < next_timer e)%nat.

(** ** Reading a trace *)

Definition is_nodeError (fx : Effect) : bool :=
  match fx with
  | Emit (Event.nodeError _ _) => true
  | _ => false
  end.

Definition is_queueEnd (fx : Effect) : bool :=
  match fx with
  | Emit (Event.queueEnd _ _) => true
  | _ => false
  end.

Definition is_play (fx : Effect) : bool :=
  match fx with
  | PlayerPlay _ => true
  | _ => false
  end.

(** How many effects of a trace satisfy a test. *)
Definition occurrences (test : Effect -> bool) (fx : list Effect) : nat :=
  List.length (List.filter test fx).

(** ** Sample states *)

(** [{ host: "localhost" }] *)
Definition host_only : GivenOptions :=
  {| given_host := present (Some "localhost"); given_port := absent;
     given_password := absent; given_secure := absent;
     given_identifier := absent; given_retryAmount := absent;
     given_retryDelay := absent; given_requestTimeout := absent |}.

Definition sample_options : NodeOptions := with_defaults "secret" host_only.

Definition sample_socket (st : ReadyState) : WebSocket :=
  {| readyState := st; url := address sample_options;
     Authorization := password sample_options; client_id := Some "bot";
     listeners := ["open"; "close"; "message"; "error"]%string |}.

Definition sample_queue (l : list Slot) (cur : Slot) : Queue.t :=
  {| Queue.items := l; Queue.current := cur; Queue.previous := None |}.

Definition sample_player (tr qr : bool) (q : Queue.t) : Player.t :=
  {| Player.guild := "g1"; Player.node := 0%nat; Player.playing := true;
     Player.paused := false; Player.trackRepeat := tr;
     Player.queueRepeat := qr; Player.queue := q |}.

Definition sample_payload : Payload :=
  {| Payload.op := None; Payload.t := Some WSEvents.QUEUE_END;
     Payload.d := Some {| Payload.guild_id := Some "g1" |} |}.

Definition sample_env : Env :=
  {| manager_node := Some 0%nat;
     players := [("g1", sample_player false false
                          (sample_queue [Some "B"; Some "C"] (Some "A")))]%string;
     clientID := Some "bot"; timers := ∅; next_timer := 0%nat; trace := [] |}.

(** A Node after [attempts - 1] reconnect cycles whose socket is in state
    [st] (no socket for [None]). *)
Definition sample_node (st : option ReadyState) (attempts : Z) : Node :=
  {| options := sample_options; socket := sample_socket <$> st;
     reconnectTimeout := None; reconnectAttempts := attempts |}.

(** A world whose Manager already holds Node 0. *)
Definition sample_world : World :=
  {| objects := {[0%nat := sample_node (Some OPEN) 1]};
     next_object := 1%nat; static_manager := true; env := sample_env |}.

(** A Node on its last attempt (counter 5, limit 5) whose socket has just
    closed abnormally: the close handler has run and armed timer 0. *)
Definition exhausted_state : Node * Env :=
  close 1006 "" 0%nat (sample_node (Some CLOSED) 5) sample_env.

(** ** A run from construction to exhausted retries *)

(** The transport moves the socket of a Node to another state. *)
Definition transport (st : ReadyState) (this : NodeId) (n : Node) (e : Env)
  : Node * Env :=
  (set_socket
     ((fun ws => {| readyState := st; url := url ws;
                    Authorization := Authorization ws;
                    client_id := client_id ws;
                    listeners := listeners ws |}) <$> socket n) n,
   e).

(** The event loop runs pending timer [id] on the Node that armed it. *)
Definition run_timer (id : TimerId) (w : World) : World :=
  match timers (env w) !! id with
  | Some tm => call (fun this n e => (timeout_fires id this n e).2) (owner tm) w
  | None => w
  end.

Definition boot : World :=
  initStaticManager
    {| objects := ∅; next_object := 0%nat; static_manager := false;
       env := {| manager_node := None; players := []; clientID := Some "bot";
                 timers := ∅; next_timer := 0%nat; trace := [] |} |}.


(** [{ host: "localhost", retryAmount: 2 }] *)
Definition two_attempts : GivenOptions :=
  {| given_host := present (Some "localhost"); given_port := absent;
     given_password := absent; given_secure := absent;
     given_identifier := absent; given_retryAmount := present (Some 2);
     given_retryDelay := absent; given_requestTimeout := absent |}.

(** Construct, connect, open; then the connection drops, the first timer
    reconnects, the new socket fails too and is closed. *)
Definition before_last_timer : World :=
  let w1 := (constructor two_attempts "pw" boot).2 in
  let w2 := call open 0%nat (call (transport OPEN) 0%nat (call connect 0%nat w1)) in
  let w3 := call (close 1006 "") 0%nat (call (transport CLOSED) 0%nat w2) in
  let w4 := run_timer 0%nat w3 in
  call (close 1006 "") 0%nat (call (transport CLOSED) 0%nat w4).

(** [connect()] twice before the first socket opens leaves that socket
    behind with its listeners; the second one opens and the Node is
    destroyed. *)
Definition destroyed_with_stale_socket : World :=
  let w1 := (constructor two_attempts "pw" boot).2 in
  let w2 := call connect 0%nat (call connect 0%nat w1) in
  let w3 := call open 0%nat (call (transport OPEN) 0%nat w2) in
  call destroy 0%nat w3.

(** [{ host: "localhost", retryAmount: 1 }] *)
Definition one_attempt : GivenOptions :=
  {| given_host := present (Some "localhost"); given_port := absent;
     given_password := absent; given_secure := absent;
     given_identifier := absent; given_retryAmount := present (Some 1);
     given_retryDelay := absent; given_requestTimeout := absent |}.

(** [connect()] twice before either socket opens, then both sockets fail:
    the close event of the socket left behind runs the close handler, which
    arms timer 0; the close event of the current socket runs it again, and
    it arms timer 1 without clearing timer 0. *)
Definition two_timers_pending : World :=
  let w1 := (constructor one_attempt "pw" boot).2 in
  let w2 := call connect 0%nat (call connect 0%nat w1) in
  let w3 := call (close 1006 "") 0%nat w2 in
  call (close 1006 "") 0%nat (call (transport CLOSED) 0%nat w3).

(** A Node on its last attempt whose socket is open when the socket it left
    behind closes abnormally: the close handler has armed timer 0. *)
Definition exhausted_while_open : Node * Env :=
  close 1006 "" 0%nat (sample_node (Some OPEN) 5) sample_env.

(** ** The rest of the class: password, requests, inbound dispatch *)

(** The alphabet of [generateRandomPassword]. *)
Definition characters : string := "abcdefghijklmnopqrstuvwxyz123456789".

(** [s[i]] appended to a string: past the end it is undefined, which [+=]
    appends as text. *)
Definition char_at (s : string) (i : nat) : string :=
  match String.get i s with
  | Some c => String c ""
  | None => "undefined"
  end.

(** [generateRandomPassword()].  [draw i] is the value of
    [Math.floor(Math.random() * characters.length)] in iteration [i]. *)
Definition generateRandomPassword (draw : nat -> nat) : string :=
  foldl (fun password i => password +:+ char_at characters (draw i)) ""
        (seq 0 22).

Inductive Method := GET | POST | PATCH | DELETE.

(** What [makeRequest] hands to [fetch]. *)
Record Request := {
  request_url : string;
  request_method : Method;
  request_body : option string;
  request_Authorization : option string;
  request_Content_Type : string
}.

(** [makeRequest(method, path, body)].  [token] is [manager.access_token];
    the serialiser's exception leaves the method before [fetch] is called. *)
Definition makeRequest (method : Method) (path : string) (body : JsValue)
  (n : Node) (token : option string) : Completion Request :=
  let target :=
    "http" +:+ (if truthy_bool (secure (options n)) then "s" else "") +:+ "://"
    +:+ template_string (host (options n)) +:+ ":"
    +:+ template_number (port (options n)) +:+ "/" +:+ path in
  match JSON_stringify (if ToBoolean body then body else JObject []) with
  | Throw err => Throw err
  | Normal text =>
      Normal {| request_url := target;
                request_method := method;
                request_body := text;
                request_Authorization := token;
                request_Content_Type := "application/json" |}
  end.

Module Frame.

Module Inner.
(** [payload.d.d] of a voice-state frame. *)
Record t := mk {
  guild_id : option string
}.
End Inner.

Module Data.
(** Modelled from the spec: [payload.d] (the Payload interface is declared
    outside the file verified here) carries the guild of a track event, the
    access token of READY and the inner data of a voice-state frame. *)
Record t := mk {
  guild_id : option string;
  access_token : option string;
  d : option Inner.t
}.
End Data.

(** Modelled from the spec: the inbound frame [{ op?, t?, d? }] as
    [message] reads it once decoded. *)
Record frame := mk {
  op : option Z;
  t : option string;
  d : option Data.t
}.

(** The same frame as [handleTrackEvent] reads it. *)
Definition payload (f : frame) : Payload :=
  {| Payload.op := op f;
     Payload.t := t f;
     Payload.d := (fun x => {| Payload.guild_id := Data.guild_id x |}) <$> d f |}.

End Frame.

Module Dispatch.

(** What [message] emits ([manager.emit]) or calls itself, and the effects
    of the track handler it hands a frame to. *)
Inductive t :=
| nodeHello (n : NodeId)
| identify (text : string)
| voiceStateUpdate (guild : option string) (data : Frame.Data.t)
| nodeUnknownOpcode (p : Frame.frame)
| ready (p : Frame.frame)
| voiceReady (p : Frame.frame)
| voiceError (p : Frame.frame)
| audioPlayerError (p : Frame.frame)
| track (fx : Effect).

End Dispatch.

(** The Manager as [message] reaches it: the environment of the other
    methods, [manager.access_token], and what was dispatched so far. *)
Record Session := {
  session_env : Env;
  session_token : option string;
  dispatched : list Dispatch.t
}.

Definition notice (x : Dispatch.t) (s : Session) : Session :=
  {| session_env := session_env s; session_token := session_token s;
     dispatched := dispatched s ++ [x] |}.

Definition set_session_token (x : option string) (s : Session) : Session :=
  {| session_env := session_env s; session_token := x;
     dispatched := dispatched s |}.

(** [JSON.stringify({ op: WSOpCodes.IDENTIFY })] *)
Definition identify_text : string :=
  match JSON_stringify
          (JObject [("op"%string,
                     JNumber (Integral WSOpCodes.IDENTIFY eq_refl))]) with
  | Normal (Some text) => text
  | _ => ""
  end.

Definition null_send_message : string :=
  "Cannot read properties of null (reading 'send')".

Definition undefined_field_message (field : string) : string :=
  "Cannot read properties of undefined (reading '" +:+ field +:+ "')".

(** [if (payload.op !== undefined) switch (payload.op) ...] *)
Definition message_op (payload : Frame.frame) (this : NodeId) (n : Node)
  (s : Session) : Completion unit * Session :=
  match Frame.op payload with
  | None => (Normal tt, s)
  | Some code =>
      if code =? WSOpCodes.HELLO then
        let s1 := notice (Dispatch.nodeHello this) s in
        match socket n with
        | None => (Throw (TypeError null_send_message), s1)
        | Some _ => (Normal tt, notice (Dispatch.identify identify_text) s1)
        end
      else if code =? WSOpCodes.VOICE_STATE_UPDATE then
        match Frame.d payload with
        | None => (Throw (TypeError (undefined_field_message "d")), s)
        | Some data =>
            match Frame.Data.d data with
            | None =>
                (Throw (TypeError (undefined_field_message "guild_id")), s)
            | Some inner =>
                (Normal tt,
                 notice (Dispatch.voiceStateUpdate
                           (Frame.Inner.guild_id inner) data) s)
            end
        end
      else (Normal tt, notice (Dispatch.nodeUnknownOpcode payload) s)
  end.

(** The effects a step appended to the trace. *)
Definition appended (before after : Env) : list Effect :=
  drop (List.length (trace before)) (trace after).

(** [if (payload.t !== undefined) switch (payload.t) ...] *)
Definition message_t (payload : Frame.frame) (s : Session)
  : Completion unit * Session :=
  match Frame.t payload with
  | None => (Normal tt, s)
  | Some _ =>
      if is_event WSEvents.READY (Frame.t payload) then
        match Frame.d payload with
        | None =>
            (Throw (TypeError (undefined_field_message "access_token")), s)
        | Some data =>
            (Normal tt,
             notice (Dispatch.ready payload)
               (set_session_token (Frame.Data.access_token data) s))
        end
      else if is_event WSEvents.VOICE_CONNECTION_READY (Frame.t payload) then
        (Normal tt, notice (Dispatch.voiceReady payload) s)
      else if is_event WSEvents.VOICE_CONNECTION_ERROR (Frame.t payload) then
        (Normal tt, notice (Dispatch.voiceError payload) s)
      else if is_event WSEvents.VOICE_CONNECTION_DISCONNECT (Frame.t payload) then
        (Normal tt, notice (Dispatch.voiceError payload) s)
      else if is_event WSEvents.AUDIO_PLAYER_ERROR (Frame.t payload) then
        (Normal tt, notice (Dispatch.audioPlayerError payload) s)
      else
        let '(c, e') := handleTrackEvent (Frame.payload payload) (session_env s) in
        (c, {| session_env := e';
               session_token := session_token s;
               dispatched := dispatched s
                             ++ (Dispatch.track <$> appended (session_env s) e') |})
  end.

(** [message(d)] from the decoded payload on: [payload] is the value of
    [JSON.parse(d.toString())].  An exception in the opcode switch leaves
    the method before the event switch. *)
Definition message (payload : Frame.frame) (this : NodeId) (n : Node)
  (s : Session) : Completion unit * Session :=
  match message_op payload this n s with
  | (Throw err, s1) => (Throw err, s1)
  | (Normal _, s1) => message_t payload s1
  end.

(** ** Finish events in a row *)

(** One finish event for a player, as [handleTrackEvent] runs the decision:
    on the player's current track. *)
Definition finish (payload : Payload) (p : Player.t) : Player.t * list Effect :=
  trackEnd p (Queue.current (Player.queue p)) payload.

(** [k] finish events in a row and everything they emitted. *)
Fixpoint finishes (payload : Payload) (k : nat) (p : Player.t)
  : Player.t * list Effect :=
  match k with
  | O => (p, [])
  | S k' =>
      let '(p1, fx1) := finish payload p in
      let '(p2, fx2) := finishes payload k' p1 in
      (p2, fx1 ++ fx2)
  end.

(** What the decision emits when it goes on playing: trackEnd for the track
    that finished, then [play()]. *)
Definition played (g : string) (x : TrackData) : list Effect :=
  [Emit (Event.trackEnd g (Some x)); PlayerPlay g].

(** ** Reconnect cycles in a row *)

(** One failed reconnect cycle: the Node's reconnect timer fires, the
    transport closes the socket abnormally, the close handler runs. *)
Definition failed_cycle (this : NodeId) (st : Node * Env) : Node * Env :=
  match reconnectTimeout st.1 with
  | Some id =>
      let fired := (timeout_fires id this st.1 st.2).2 in
      let closed := transport CLOSED this fired.1 fired.2 in
      close 1006 "" this closed.1 closed.2
  | None => st
  end.

(** What one such cycle below the limit adds to the trace. *)
Definition cycle_effects (this : NodeId) (o : NodeOptions) : list Effect :=
  [SocketRemoveAllListeners; Emit (Event.nodeReconnect this);
   SocketNew (address o); Emit (Event.nodeDisconnect this 1006 "")].

(** ** More sample states *)

Definition sample_session : Session :=
  {| session_env := sample_env; session_token := None; dispatched := [] |}.

Definition sample_frame (code : option Z) (name : option string) : Frame.frame :=
  {| Frame.op := code; Frame.t := name;
     Frame.d := Some {| Frame.Data.guild_id := Some "g1"%string;
                        Frame.Data.access_token := Some "token"%string;
                        Frame.Data.d := None |} |}.

(** A Node with the default budget whose socket has just closed abnormally
    for the first time: counter 1, timer 0 armed. *)
Definition first_drop : Node * Env :=
  close 1006 "" 0%nat (sample_node (Some CLOSED) 1) sample_env.

(** A fresh world with the static manager set and the slot empty. *)
Definition empty_world : World := boot.

(** * Properties *)

(** ** Connection supervisor *)

(** Effects accumulate in program order. *)
Lemma perform_perform (fx1 fx2 : list Effect) (e : Env) :
  perform fx2 (perform fx1 e) = perform (fx1 ++ fx2) e.
Proof. unfold perform, set_trace. simpl. rewrite app_assoc. reflexivity. Qed.

Section Supervisor.

Variable this : NodeId.

(** Outside its guard [destroy] touches nothing. *)
Lemma destroy_disconnected (n : Node) (e : Env) :
  connected n = false -> destroy this n e = (n, e).
Proof. intros H. unfold destroy. rewrite H. reflexivity. Qed.

(** Whatever the state, the Node is disconnected once [destroy] returns. *)
Lemma destroy_disconnects (n : Node) (e : Env) :
  connected (destroy this n e).1 = false.
Proof.
  unfold destroy. destruct (connected n) eqn:Hc; simpl.
  - reflexivity.
  - exact Hc.
Qed.

(** The teardown proper, when the socket is open. *)
Lemma destroy_connected (n : Node) (e : Env) :
  connected n = true ->
  let r := destroy this n e in
  socket r.1 = None
  /\ reconnectAttempts r.1 = 1
  /\ manager_node r.2 = None
  /\ timers r.2 = match reconnectTimeout n with
                  | Some id => delete id (timers e)
                  | None => timers e
                  end
  /\ trace r.2 = trace e ++ destroy_players this (players e)
                 ++ [SocketClose 1000 "destroy"; SocketRemoveAllListeners;
                     Emit (Event.nodeDestroy this)].
Proof.
  intros H. unfold destroy. rewrite H. simpl.
  repeat split.
  - destruct (reconnectTimeout n); reflexivity.
  - destruct (reconnectTimeout n); simpl; rewrite <- !app_assoc; reflexivity.
Qed.

(** C9: [destroy()] is idempotent.  A second call in a row returns the very
    state (fields, environment and trace, hence no further signal) the first
    one left, and a call on a Node that is not connected changes nothing. *)
Theorem destroy_idempotent (n : Node) (e : Env) :
  let once := destroy this n e in
  let twice := destroy this once.1 once.2 in
  twice = once
  /\ trace twice.2 = trace once.2
  /\ (connected n = false -> once = (n, e)).
Proof.
  cbv zeta.
  assert (H : destroy this (destroy this n e).1 (destroy this n e).2
              = destroy this n e).
  { rewrite destroy_disconnected by apply destroy_disconnects.
    symmetry. apply surjective_pairing. }
  split; [exact H|]. split; [rewrite H; reflexivity|].
  apply destroy_disconnected.
Qed.

(** A handle that is not null gets its timer. *)
Lemma reconnect_arms (n : Node) (e : Env) (ws : WebSocket) :
  socket n = Some ws ->
  reconnect this n e
  = (set_reconnectTimeout (Some (next_timer e)) n,
     set_next_timer (S (next_timer e))
       (set_timers (<[next_timer e := {| owner := this;
                                         delay := retryDelay (options n) |}]>
                      (timers e)) e)).
Proof. intros H. unfold reconnect. rewrite H. reflexivity. Qed.

Lemma reconnect_null (n : Node) (e : Env) :
  socket n = None -> reconnect this n e = (n, e).
Proof. intros H. unfold reconnect. rewrite H. reflexivity. Qed.

(** The close handler on a code and a reason other than the pair
    (1000, destroy) goes through [reconnect]. *)
Lemma close_unexpected (code : Z) (reason : string) (n : Node) (e : Env) :
  code <> 1000 \/ reason <> "destroy"%string ->
  close code reason this n e
  = reconnect this n (emit (Event.nodeDisconnect this code reason) e).
Proof.
  intros H. unfold close.
  destruct (negb (code =? 1000) || negb (String.eqb reason "destroy")) eqn:Hg;
    [reflexivity|].
  apply orb_false_elim in Hg as [H1 H2].
  apply negb_false_iff in H1, H2.
  apply Z.eqb_eq in H1. apply String.eqb_eq in H2.
  destruct H; contradiction.
Qed.

(** C4, as the code has it: the close handler never arms a timer on code
    1000 with reason destroy; on every other pair it arms one, recorded in
    [reconnectTimeout] and pending for this Node with the configured delay,
    when the Node holds a socket handle, and arms none when the handle is
    null. *)
Theorem close_reconnect_timer
  (code : Z) (reason : string) (n : Node) (e : Env) :
  (close 1000 "destroy" this n e).1 = n
  /\ timers (close 1000 "destroy" this n e).2 = timers e
  /\ (code <> 1000 \/ reason <> "destroy"%string ->
      (forall ws, socket n = Some ws ->
         reconnectTimeout (close code reason this n e).1 = Some (next_timer e)
         /\ timers (close code reason this n e).2
            = <[next_timer e := {| owner := this;
                                   delay := retryDelay (options n) |}]>
                (timers e))
      /\ (socket n = None ->
          (close code reason this n e).1 = n
          /\ timers (close code reason this n e).2 = timers e)).
Proof.
  split; [reflexivity|]. split; [reflexivity|].
  intros H. rewrite (close_unexpected _ _ _ _ H). split.
  - intros ws Hws. rewrite (reconnect_arms _ _ ws Hws). simpl.
    split; reflexivity.
  - intros Hnull. rewrite (reconnect_null _ _ Hnull). split; reflexivity.
Qed.

End Supervisor.

(** A close that is not the destroy close, on a Node holding a closed
    socket: timer 0 is armed. *)
Lemma close_arms_timer_witness :
  let r := close 1006 "" 0%nat (sample_node (Some CLOSED) 1) sample_env in
  reconnectTimeout r.1 = Some 0%nat
  /\ timers r.2 = <[0%nat := {| owner := 0%nat; delay := Some 30000 |}]> ∅.
Proof.
  destruct (close_reconnect_timer 0%nat 1006 ""
              (sample_node (Some CLOSED) 1) sample_env) as (_ & _ & H).
  destruct H as [H _]; [left; lia|].
  exact (H (sample_socket CLOSED) eq_refl).
Defined.

(** C4 as stated fails: code 1006 with an empty reason is not the pair
    (1000, destroy), yet on a Node whose handle is null the close handler
    arms nothing. *)
Lemma close_on_null_handle_arms_nothing :
  let r := close 1006 "" 0%nat (sample_node None 1) sample_env in
  (1006 <> 1000 \/ ""%string <> "destroy"%string)
  /\ timers r.2 = timers sample_env
  /\ timers r.2 = ∅
  /\ reconnectTimeout r.1 = None.
Proof. cbv zeta. split; [left; lia|]. repeat split. Qed.

(** ** Retry exhaustion *)

Section Exhaustion.

Variable this : NodeId.

Lemma occurrences_app (test : Effect -> bool) (l1 l2 : list Effect) :
  occurrences test (l1 ++ l2) = (occurrences test l1 + occurrences test l2)%nat.
Proof. unfold occurrences. rewrite List.filter_app, List.length_app. reflexivity. Qed.

(** Tearing players down signals no node error. *)
Lemma destroy_players_no_nodeError (ps : list (string * Player.t)) :
  occurrences is_nodeError (destroy_players this ps) = 0%nat.
Proof.
  unfold destroy_players.
  induction ps as [|[k p] ps IH]; simpl; [reflexivity|].
  rewrite occurrences_app, IH.
  destruct (decide (Player.node p = this)); reflexivity.
Qed.

(** Below the limit the closure drops the stale socket, signals the
    reconnect, dials again and counts the attempt. *)
Lemma reconnect_timeout_retries
  (limit : Z) (ws : WebSocket) (n : Node) (e : Env) :
  retryAmount (options n) = Some limit ->
  reconnectAttempts n < limit ->
  socket n = Some ws ->
  reconnect_timeout this n e
  = (Normal tt,
     (set_reconnectAttempts (reconnectAttempts n + 1)
        (connect this (set_socket None n) e).1,
      perform [SocketRemoveAllListeners; Emit (Event.nodeReconnect this);
               SocketNew (address (options n))] e)).
Proof.
  intros Hlimit Hbelow Hws. unfold reconnect_timeout.
  rewrite Hlimit, Hws. simpl.
  apply Z.leb_gt in Hbelow. rewrite Hbelow.
  unfold connect, emit. simpl. rewrite !perform_perform. reflexivity.
Qed.

(** What [destroy] leaves pending: the timers that were, less the one the
    handle names when the teardown runs. *)
Lemma destroy_timers (n : Node) (e : Env) :
  timers (destroy this n e).2
  = if connected n
    then match reconnectTimeout n with
         | Some h => delete h (timers e)
         | None => timers e
         end
    else timers e.
Proof.
  unfold destroy. destruct (connected n); simpl; [|reflexivity].
  destruct (reconnectTimeout n); reflexivity.
Qed.

Lemma destroy_reconnectTimeout (n : Node) (e : Env) :
  reconnectTimeout (destroy this n e).1 = reconnectTimeout n.
Proof. unfold destroy. destruct (connected n); reflexivity. Qed.

(** C1, as the code has it: when a reconnect timer of the Node fires with the
    attempt counter at or above [retryAmount], the closure completes
    normally, emits the nodeError of exhausted retries and calls [destroy].
    On a socket that is not open [destroy] returns at its guard: the Node
    keeps every field (socket handle, counter, timer handle) and the
    environment changes by the fired timer and the nodeError alone, so the
    Manager keeps the Node in its slot and no nodeDestroy is emitted.  On an
    open socket the teardown runs: the players of the Node are destroyed,
    the socket is closed with (1000, destroy) and dropped, the counter goes
    back to 1, the timer the handle names is cleared, nodeDestroy is emitted
    and the slot is emptied.  In both cases the effects of the firing start
    with the nodeError and hold no other nodeError, the Node is not
    connected afterwards, the fired timer is no longer pending and no timer
    is armed; and every other timer that was pending stays pending, save the
    one the teardown clears. *)
Theorem exhausted_retries_terminal
  (id : TimerId) (tm : Timer) (limit : Z) (n : Node) (e : Env)
  (Hpending : timers e !! id = Some tm)
  (Howner : owner tm = this)
  (Hlimit : retryAmount (options n) = Some limit)
  (Hreached : limit <= reconnectAttempts n) :
  let failure := Event.nodeError this (Error (exhausted_message (options n))) in
  let r := timeout_fires id this n e in
  r.1 = Normal tt
  /\ (connected n = false ->
      r.2 = (n, emit failure (set_timers (delete id (timers e)) e)))
  /\ (connected n = true ->
      r.2.1 = set_reconnectAttempts 1 (set_socket None n)
      /\ manager_node r.2.2 = None
      /\ timers r.2.2 = match reconnectTimeout n with
                        | Some h => delete h (delete id (timers e))
                        | None => delete id (timers e)
                        end
      /\ trace r.2.2
         = trace e ++ [Emit failure] ++ destroy_players this (players e)
           ++ [SocketClose 1000 "destroy"; SocketRemoveAllListeners;
               Emit (Event.nodeDestroy this)])
  /\ (exists fx, trace r.2.2 = trace e ++ fx
                 /\ head fx = Some (Emit failure)
                 /\ occurrences is_nodeError fx = 1%nat)
  /\ connected r.2.1 = false
  /\ timers r.2.2 !! id = None
  /\ (forall id' x, timers r.2.2 !! id' = Some x ->
                    id' <> id /\ timers e !! id' = Some x)
  /\ (forall id' x, timers e !! id' = Some x ->
                    id' <> id ->
                    (connected n = true -> reconnectTimeout n <> Some id') ->
                    timers r.2.2 !! id' = Some x).
Proof.
  cbv zeta.
  assert (Hstep : timeout_fires id this n e
                  = (Normal tt,
                     destroy this n
                       (emit (Event.nodeError this
                                (Error (exhausted_message (options n))))
                          (set_timers (delete id (timers e)) e)))).
  { unfold timeout_fires. rewrite Hpending.
    destruct (decide (owner tm = this)) as [_|Hne]; [|contradiction].
    unfold reconnect_timeout. rewrite Hlimit. simpl.
    apply Z.leb_le in Hreached. rewrite Hreached. reflexivity. }
  rewrite Hstep. simpl.
  split; [reflexivity|].
  split; [intros Hdown; apply destroy_disconnected; exact Hdown|].
  split.
  { intros Hup.
    destruct (destroy_connected this n
                (emit (Event.nodeError this
                         (Error (exhausted_message (options n))))
                   (set_timers (delete id (timers e)) e)) Hup)
      as (Hsocket & Hcount & Hslot & Htimers & Htrace).
    split; [|split; [exact Hslot|split; [exact Htimers|]]].
    - unfold destroy. rewrite Hup. reflexivity.
    - rewrite Htrace. simpl. rewrite <- app_assoc. reflexivity. }
  split; [|split; [apply destroy_disconnects|]].
  - unfold destroy. destruct (connected n) eqn:Hc; simpl.
    + exists ([Emit (Event.nodeError this
                       (Error (exhausted_message (options n))))]
              ++ destroy_players this (players e)
              ++ [SocketClose 1000 "destroy"; SocketRemoveAllListeners;
                  Emit (Event.nodeDestroy this)]).
      split; [|split].
      * destruct (reconnectTimeout n); simpl; rewrite <- !app_assoc;
          reflexivity.
      * reflexivity.
      * rewrite !occurrences_app, destroy_players_no_nodeError.
        reflexivity.
    + eexists. split; [reflexivity|]. split; reflexivity.
  - rewrite destroy_timers. simpl.
    assert (Hsub : forall id' x,
               (if connected n
                then match reconnectTimeout n with
                     | Some h => delete h (delete id (timers e))
                     | None => delete id (timers e)
                     end
                else delete id (timers e)) !! id' = Some x ->
               id' <> id /\ timers e !! id' = Some x).
    { intros id' x Hx.
      assert (Hx' : delete id (timers e) !! id' = Some x).
      { destruct (connected n); [|exact Hx].
        destruct (reconnectTimeout n) as [h|]; [|exact Hx].
        apply lookup_delete_Some in Hx as [_ Hx]. exact Hx. }
      apply lookup_delete_Some in Hx' as [Hne Hx'].
      split; [congruence|exact Hx']. }
    split; [|split; [exact Hsub|]].
    + match goal with
      | |- ?m !! id = None => destruct (m !! id) as [x|] eqn:Hx
      end; [|reflexivity].
      destruct (Hsub id x Hx) as [Hne _]. contradiction.
    + intros id' x Hx Hne Hhandle.
      assert (Hx' : delete id (timers e) !! id' = Some x).
      { apply lookup_delete_Some. split; [congruence|exact Hx]. }
      destruct (connected n); [|exact Hx'].
      destruct (reconnectTimeout n) as [h|]; [|exact Hx'].
      apply lookup_delete_Some. split; [|exact Hx'].
      intros ->. exact (Hhandle eq_refl eq_refl).
Qed.

End Exhaustion.

Lemma exhausted_retries_terminal_witness :
  (let r := timeout_fires 0%nat 0%nat exhausted_state.1 exhausted_state.2 in
   r.1 = Normal tt
   /\ r.2.1 = exhausted_state.1
   /\ manager_node r.2.2 = Some 0%nat
   /\ connected r.2.1 = false
   /\ timers r.2.2 !! 0%nat = None)
  /\ (let r := timeout_fires 0%nat 0%nat exhausted_while_open.1
                 exhausted_while_open.2 in
      r.1 = Normal tt
      /\ socket r.2.1 = None
      /\ reconnectAttempts r.2.1 = 1
      /\ manager_node r.2.2 = None
      /\ connected r.2.1 = false
      /\ trace r.2.2
         = [Emit (Event.nodeDisconnect 0%nat 1006 "");
            Emit (Event.nodeError 0%nat
                    (Error "Unable to connect after 5 attempts."));
            PlayerDestroy "g1";
            SocketClose 1000 "destroy"; SocketRemoveAllListeners;
            Emit (Event.nodeDestroy 0%nat)]).
Proof.
  split.
  - destruct (exhausted_retries_terminal 0%nat 0%nat
                {| owner := 0%nat; delay := Some 30000 |} 5
                exhausted_state.1 exhausted_state.2
                eq_refl eq_refl eq_refl (Z.le_refl 5))
      as (H1 & H2 & _ & _ & H5 & H6 & _).
    cbv zeta. rewrite (H2 eq_refl).
    split; [reflexivity|]. split; [reflexivity|]. split; [reflexivity|].
    split; reflexivity.
  - destruct (exhausted_retries_terminal 0%nat 0%nat
                {| owner := 0%nat; delay := Some 30000 |} 5
                exhausted_while_open.1 exhausted_while_open.2
                eq_refl eq_refl eq_refl (Z.le_refl 5))
      as (H1 & _ & H3 & _ & H5 & _).
    destruct (H3 eq_refl) as (Hn & Hslot & _ & Htrace).
    cbv zeta. split; [exact H1|].
    split; [rewrite Hn; reflexivity|]. split; [rewrite Hn; reflexivity|].
    split; [exact Hslot|]. split; [exact H5|]. exact Htrace.
Defined.

(** C1 as stated fails.  With retryAmount 1, [connect()] called twice and
    both sockets closing, two reconnect timers of the Node are pending and
    the counter is at the limit.  The timer recorded in [reconnectTimeout]
    fires: it signals the nodeError and calls [destroy], which returns at
    its guard because the socket is closed, so the Node object is as
    before, the Manager still holds it and no nodeDestroy is emitted; the
    other timer is still pending.  When that one fires the nodeError is
    signalled a second time. *)
Lemma exhausted_retries_second_timer :
  let w := two_timers_pending in
  let after := run_timer 1%nat w in
  let later := run_timer 0%nat after in
  (reconnectTimeout <$> objects w !! 0%nat) = Some (Some 1%nat)
  /\ (reconnectAttempts <$> objects w !! 0%nat) = Some 1
  /\ (retryAmount <$> (options <$> objects w !! 0%nat)) = Some (Some 1)
  /\ (connected <$> objects w !! 0%nat) = Some false
  /\ trace (env after)
     = trace (env w)
       ++ [Emit (Event.nodeError 0%nat
                   (Error "Unable to connect after 1 attempts."))]
  /\ objects after !! 0%nat = objects w !! 0%nat
  /\ manager_node (env after) = Some 0%nat
  /\ timers (env after) !! 0%nat
     = Some {| owner := 0%nat; delay := Some 30000 |}
  /\ trace (env later)
     = trace (env w)
       ++ [Emit (Event.nodeError 0%nat
                   (Error "Unable to connect after 1 attempts."));
           Emit (Event.nodeError 0%nat
                   (Error "Unable to connect after 1 attempts."))]
  /\ occurrences is_nodeError (trace (env later)) = 2%nat.
Proof. cbv zeta. repeat split. Qed.

Lemma destroy_idempotent_witness :
  destroy 0%nat (destroy 0%nat (sample_node (Some OPEN) 1) sample_env).1
                (destroy 0%nat (sample_node (Some OPEN) 1) sample_env).2
  = destroy 0%nat (sample_node (Some OPEN) 1) sample_env
  /\ destroy 0%nat (sample_node (Some CLOSED) 1) sample_env
     = (sample_node (Some CLOSED) 1, sample_env).
Proof.
  split.
  - exact (proj1 (destroy_idempotent 0%nat (sample_node (Some OPEN) 1)
                    sample_env)).
  - exact (proj2 (proj2 (destroy_idempotent 0%nat
                           (sample_node (Some CLOSED) 1) sample_env))
             eq_refl).
Defined.

(** ** Timer handles stay fresh *)

Section Fresh.

Variable this : NodeId.

Lemma timers_fresh_delete (id : TimerId) (e : Env) :
  timers_fresh e -> timers_fresh (set_timers (delete id (timers e)) e).
Proof.
  intros Hf id' [x Hx]. simpl in *.
  apply lookup_delete_Some in Hx as [_ Hx]. apply Hf. eauto.
Qed.

Lemma timers_fresh_clearTimeout (h : option TimerId) (e : Env) :
  timers_fresh e -> timers_fresh (clearTimeout h e).
Proof. destruct h; simpl; [apply timers_fresh_delete|auto]. Qed.

Lemma timers_fresh_perform (fx : list Effect) (e : Env) :
  timers_fresh e -> timers_fresh (perform fx e).
Proof. intros Hf. exact Hf. Qed.

Lemma timers_fresh_destroy (n : Node) (e : Env) :
  timers_fresh e -> timers_fresh (destroy this n e).2.
Proof.
  intros Hf. unfold destroy. destruct (connected n); simpl; [|exact Hf].
  intros id Hid. simpl in Hid.
  destruct (reconnectTimeout n) as [h|]; simpl in Hid.
  - destruct Hid as [x Hx]. apply lookup_delete_Some in Hx as [_ Hx].
    apply Hf. eauto.
  - apply Hf. exact Hid.
Qed.

Lemma timers_fresh_reconnect (n : Node) (e : Env) :
  timers_fresh e -> timers_fresh (reconnect this n e).2.
Proof.
  intros Hf. unfold reconnect. destruct (socket n); simpl; [|exact Hf].
  intros id [x Hx]. simpl in *.
  apply lookup_insert_Some in Hx as [[<- _]|[_ Hx]]; [lia|].
  assert (id < next_timer e)%nat by (apply Hf; eauto). lia.
Qed.

Lemma timers_fresh_close (code : Z) (reason : string) (n : Node) (e : Env) :
  timers_fresh e -> timers_fresh (close code reason this n e).2.
Proof.
  intros Hf. unfold close.
  destruct (negb (code =? 1000) || negb (String.eqb reason "destroy"));
    [|exact Hf].
  apply timers_fresh_reconnect. exact Hf.
Qed.

Lemma timers_fresh_open (n : Node) (e : Env) :
  timers_fresh e -> timers_fresh (open this n e).2.
Proof.
  intros Hf. unfold open. simpl.
  destruct (truthy (reconnectTimeout n)); [|exact Hf].
  apply timers_fresh_perform, timers_fresh_clearTimeout, Hf.
Qed.

Lemma timers_fresh_timeout_fires (id : TimerId) (n : Node) (e : Env) :
  timers_fresh e -> timers_fresh (timeout_fires id this n e).2.2.
Proof.
  intros Hf. unfold timeout_fires.
  destruct (timers e !! id) as [tm|]; [|exact Hf].
  destruct (decide (owner tm = this)); [|exact Hf].
  unfold reconnect_timeout.
  destruct (ge_number (reconnectAttempts n) (retryAmount (options n))).
  - simpl. apply timers_fresh_destroy, timers_fresh_perform,
      timers_fresh_delete, Hf.
  - destruct (socket n); simpl; [|apply timers_fresh_delete, Hf].
    apply (timers_fresh_delete id e Hf).
Qed.

(** Under fresh handles the timer the close handler arms is a new one: the
    pending timers grow by exactly that handle. *)
Lemma close_arms_new_timer
  (code : Z) (reason : string) (n : Node) (e : Env) (ws : WebSocket) :
  timers_fresh e ->
  code <> 1000 \/ reason <> "destroy"%string ->
  socket n = Some ws ->
  timers e !! next_timer e = None
  /\ size (timers (close code reason this n e).2) = S (size (timers e)).
Proof.
  intros Hf Hun Hws.
  assert (Hnew : timers e !! next_timer e = None).
  { destruct (timers e !! next_timer e) as [x|] eqn:Hx; [|reflexivity].
    assert (next_timer e < next_timer e)%nat by (apply Hf; eauto). lia. }
  split; [exact Hnew|].
  rewrite (close_unexpected _ _ _ _ _ Hun), (reconnect_arms _ _ _ ws Hws).
  simpl. apply map_size_insert_None. exact Hnew.
Qed.

End Fresh.

(** ** Construction *)

(** C10: with the static manager initiated and the Manager's slot occupied,
    [new Node(options)] completes with the reference already in the slot and
    leaves the whole world as it was: the object behind the reference keeps
    its fields (no defaults merged into it), the slot keeps its content, and
    the trace gains nothing (no nodeCreate). *)
Theorem constructor_returns_existing
  (o : GivenOptions) (random_password : string) (w : World) (existing : NodeId)
  (Hstatic : static_manager w = true)
  (Hslot : manager_node (env w) = Some existing) :
  let r := constructor o random_password w in
  r = (Normal existing, w)
  /\ objects r.2 !! existing = objects w !! existing
  /\ manager_node (env r.2) = Some existing
  /\ trace (env r.2) = trace (env w)
  /\ next_object r.2 = next_object w.
Proof.
  cbv zeta. unfold constructor. rewrite Hstatic, Hslot. simpl.
  repeat split; assumption.
Qed.

(** With the slot empty the constructor does build: defaults merged under
    the given options, the slot assigned, nodeCreate emitted. *)
Lemma constructor_fresh
  (o : GivenOptions) (random_password : string) (w : World) :
  static_manager w = true ->
  manager_node (env w) = None ->
  let r := constructor o random_password w in
  r.1 = Normal (next_object w)
  /\ objects r.2 !! next_object w
     = Some {| options := with_defaults random_password o; socket := None;
               reconnectTimeout := None; reconnectAttempts := 1 |}
  /\ manager_node (env r.2) = Some (next_object w)
  /\ trace (env r.2) = trace (env w) ++ [Emit (Event.nodeCreate (next_object w))].
Proof.
  intros Hs Hn. cbv zeta. unfold constructor. rewrite Hs, Hn. simpl.
  repeat split. apply lookup_insert_eq.
Qed.

Lemma constructor_returns_existing_witness :
  constructor host_only "other" sample_world = (Normal 0%nat, sample_world).
Proof.
  exact (proj1 (constructor_returns_existing host_only "other"
                  sample_world 0%nat eq_refl eq_refl)).
Defined.

(** ** Which payloads serialise *)

(** Induction on values, through the lists inside arrays and objects. *)
Lemma JsValue_nested_ind (P : JsValue -> Prop) :
  P JUndefined -> P JNull -> (forall b, P (JBool b)) ->
  (forall n, P (JNumber n)) -> (forall z, P (JBigInt z)) ->
  (forall s, P (JString s)) -> (forall s, P (JSymbol s)) ->
  (forall s, P (JFunction s)) ->
  (forall l, Forall P l -> P (JArray l)) ->
  (forall ps, Forall (fun kv => P kv.2) ps -> P (JObject ps)) ->
  forall v, P v.
Proof.
  intros Hu Hn Hb Hnum Hbig Hs Hsym Hf Harr Hobj.
  fix IH 1. intros [| |b|n|z|s|s|s|l|ps].
  - exact Hu.
  - exact Hn.
  - apply Hb.
  - apply Hnum.
  - apply Hbig.
  - apply Hs.
  - apply Hsym.
  - apply Hf.
  - apply Harr. induction l as [|x l IHl]; constructor; [apply IH|exact IHl].
  - apply Hobj. induction ps as [|[k x] ps IHps]; constructor;
      [apply IH|exact IHps].
Qed.

Lemma array_items_spec (l : list JsValue) :
  Forall throws_on_bigint l ->
  if existsb has_bigint l
  then array_items JSON_stringify l = Throw (TypeError BigInt_message)
  else exists ts, array_items JSON_stringify l = Normal ts.
Proof.
  induction 1 as [|x l Hx _ IHl]; simpl; [eauto|].
  unfold throws_on_bigint in Hx. destruct (has_bigint x); simpl.
  - rewrite Hx. reflexivity.
  - destruct Hx as [o ->]. destruct (existsb has_bigint l).
    + rewrite IHl. reflexivity.
    + destruct IHl as [ts ->]. eauto.
Qed.

Lemma object_members_spec (ps : list (string * JsValue)) :
  Forall (fun kv => throws_on_bigint kv.2) ps ->
  if existsb (fun kv => has_bigint kv.2) ps
  then object_members JSON_stringify ps = Throw (TypeError BigInt_message)
  else exists ts, object_members JSON_stringify ps = Normal ts.
Proof.
  induction 1 as [|[k x] ps Hx _ IHps]; simpl; [eauto|].
  unfold throws_on_bigint in Hx. simpl in Hx. destruct (has_bigint x); simpl.
  - rewrite Hx. reflexivity.
  - destruct Hx as [o ->].
    destruct (existsb (fun kv => has_bigint kv.2) ps).
    + rewrite IHps. reflexivity.
    + destruct IHps as [ts ->]. eauto.
Qed.

(** [JSON.stringify] throws exactly on the values that hold a BigInt, and
    then it throws the serialiser's TypeError. *)
Lemma JSON_stringify_spec (v : JsValue) : throws_on_bigint v.
Proof.
  induction v as [| |b|n|z|s|s|s|l IH|ps IH] using JsValue_nested_ind;
    unfold throws_on_bigint; simpl; eauto.
  - pose proof (array_items_spec l IH) as H.
    destruct (existsb has_bigint l).
    + rewrite H. reflexivity.
    + destruct H as [ts ->]. eauto.
  - pose proof (object_members_spec ps IH) as H.
    destruct (existsb (fun kv => has_bigint kv.2) ps).
    + rewrite H. reflexivity.
    + destruct H as [ts ->]. eauto.
Qed.

(** So every payload free of BigInt values, sent on a Node that is not
    connected, resolves to false. *)
Corollary send_disconnected_without_bigint
  (data : JsValue) (n : Node) (e : Env) :
  has_bigint data = false ->
  connected n = false ->
  send data n e = (Resolved false, e).
Proof.
  intros Hfree Hdown. pose proof (JSON_stringify_spec data) as H.
  unfold throws_on_bigint in H. rewrite Hfree in H. destruct H as [o Ho].
  unfold send. rewrite Ho, Hdown. reflexivity.
Qed.

(** And a payload that holds one rejects in any connection state. *)
Corollary send_bigint_rejects (data : JsValue) (n : Node) (e : Env) :
  has_bigint data = true ->
  send data n e = (Rejected (TypeError BigInt_message), e).
Proof.
  intros Hbig. pose proof (JSON_stringify_spec data) as H.
  unfold throws_on_bigint in H. rewrite Hbig in H.
  unfold send. rewrite H. reflexivity.
Qed.

(** ** Outbound sender *)

(** Everything but a socket write leaves the environment alone. *)
Lemma send_env (data : JsValue) (n : Node) (e : Env) :
  (send data n e).2 = e
  \/ exists frame, send data n e = (Written frame, perform [SocketSend frame] e).
Proof.
  unfold send.
  destruct (JSON_stringify data) as [[frame|]|err]; simpl; auto;
    destruct (connected n); simpl; auto;
    destruct (ToBoolean data); simpl; auto.
  destruct (startsWith "{" frame); simpl; eauto.
Qed.

(** C3, as the code has it: for every payload that [JSON.stringify]
    serialises without throwing, [send] on a Node that is not connected
    resolves to false (so it does not reject) and writes nothing. *)
Theorem send_disconnected_resolves_false
  (data : JsValue) (n : Node) (e : Env) (stringified : option string)
  (Hserial : JSON_stringify data = Normal stringified)
  (Hdown : connected n = false) :
  send data n e = (Resolved false, e).
Proof. unfold send. rewrite Hserial, Hdown. reflexivity. Qed.

Lemma send_disconnected_resolves_false_witness :
  send (JObject [("op"%string, JNumber (Integral 10 eq_refl))])
       (sample_node (Some CLOSED) 1) sample_env
  = (Resolved false, sample_env).
Proof.
  apply (send_disconnected_resolves_false _ _ _
           (Some (String "{" (QuoteJSONString "op" +:+ ":10}"))));
    reflexivity.
Defined.

(** C3 as stated fails: the payload [{ op: 10n }] sent on a Node that is not
    connected rejects, with the TypeError of [JSON.stringify]. *)
Lemma send_disconnected_rejects_bigint :
  connected (sample_node None 1) = false
  /\ send (JObject [("op"%string, JBigInt 10)]) (sample_node None 1) sample_env
     = (Rejected (TypeError BigInt_message), sample_env)
  /\ send (JObject [("op"%string, JBigInt 10)]) (sample_node None 1) sample_env
     <> (Resolved false, sample_env).
Proof. repeat split. discriminate. Qed.

(** C8, as the code has it: on a connected Node, a payload that is falsy, or
    that has no serialisation starting with an opening brace, makes [send]
    reject with the environment untouched (nothing is written to the
    socket); the rejection is the improper-data error whenever
    [JSON.stringify] returns without throwing and the payload is falsy or
    has a serialised text; and [send(null)] rejects with that error. *)
Theorem send_invalid_payload_rejects
  (data : JsValue) (n : Node) (e : Env)
  (Hup : connected n = true)
  (Hinvalid : ToBoolean data = false
              \/ forall frame, JSON_stringify data = Normal (Some frame) ->
                               startsWith "{" frame = false) :
  (exists err, send data n e = (Rejected err, e))
  /\ (forall stringified,
        JSON_stringify data = Normal stringified ->
        ToBoolean data = false \/ is_Some stringified ->
        send data n e = (Rejected improper_data, e))
  /\ send JNull n e = (Rejected improper_data, e).
Proof.
  assert (Hnull : send JNull n e = (Rejected improper_data, e)).
  { unfold send. simpl. rewrite Hup. reflexivity. }
  assert (Hmain : forall stringified,
             JSON_stringify data = Normal stringified ->
             ToBoolean data = false \/ is_Some stringified ->
             send data n e = (Rejected improper_data, e)).
  { intros stringified Hs Hcase. unfold send. rewrite Hs, Hup. simpl.
    destruct (ToBoolean data) eqn:Hb; simpl; [|reflexivity].
    destruct Hcase as [Hf|[frame ->]]; [discriminate|].
    destruct Hinvalid as [Hf|Hshape]; [discriminate|].
    rewrite (Hshape frame Hs). reflexivity. }
  split; [|split; assumption].
  destruct (JSON_stringify data) as [stringified|err] eqn:Hs.
  - destruct (ToBoolean data) eqn:Hb.
    + destruct stringified as [frame|].
      * exists improper_data. apply (Hmain (Some frame)); eauto.
      * exists (TypeError undefined_startsWith_message).
        unfold send. rewrite Hs, Hup, Hb. reflexivity.
    + exists improper_data. apply (Hmain stringified); auto.
  - exists err. unfold send. rewrite Hs. reflexivity.
Qed.

Lemma send_invalid_payload_rejects_witness :
  send (JArray [JNumber (Integral 1 eq_refl)]) (sample_node (Some OPEN) 1) sample_env
  = (Rejected improper_data, sample_env).
Proof.
  refine (proj1 (proj2 (send_invalid_payload_rejects
            (JArray [JNumber (Integral 1 eq_refl)]) (sample_node (Some OPEN) 1)
            sample_env eq_refl _)) (Some "[1]"%string) eq_refl _).
  - right. intros frame H. injection H as <-. reflexivity.
  - right. exists "[1]"%string. reflexivity.
Defined.

(** C8 as stated fails: on a connected Node the falsy payload [0n] and the
    payload [function f] (which has no serialisation) both reject, but with
    a TypeError of the runtime and not with the improper-data error. *)
Lemma send_invalid_payload_other_error :
  connected (sample_node (Some OPEN) 1) = true
  /\ ToBoolean (JBigInt 0) = false
  /\ send (JBigInt 0) (sample_node (Some OPEN) 1) sample_env
     = (Rejected (TypeError BigInt_message), sample_env)
  /\ JSON_stringify (JFunction "f") = Normal None
  /\ send (JFunction "f") (sample_node (Some OPEN) 1) sample_env
     = (Rejected (TypeError undefined_startsWith_message), sample_env)
  /\ TypeError BigInt_message <> improper_data
  /\ TypeError undefined_startsWith_message <> improper_data.
Proof. repeat split; discriminate. Qed.

(** ** Track-event state machine *)

Section TrackEnd.

Variables (player : Player.t) (payload : Payload).

Lemma length_zero_iff (x : Queue.t) :
  (Queue.length x =? 0) = true <-> Queue.items x = [].
Proof.
  unfold Queue.length. rewrite Z.eqb_eq.
  destruct (Queue.items x); simpl; split; intros H; try reflexivity;
    try discriminate; lia.
Qed.

Lemma length_nonzero (x : Queue.t) :
  Queue.items x <> [] -> (Queue.length x =? 0) = false.
Proof.
  intros H. destruct (Queue.length x =? 0) eqn:Hz; [|reflexivity].
  apply length_zero_iff in Hz. contradiction.
Qed.

(** C5: with entries left in the queue, a current track and single-track
    repeat on, the decision on the finished (current) track returns the
    player as it was, so [current] and the queued entries are unchanged,
    after signalling trackEnd for that track and calling play, in that
    order and nothing else. *)
Theorem trackEnd_trackRepeat (a : TrackData)
  (Hqueue : Queue.length (Player.queue player) <> 0)
  (Hcurrent : Queue.current (Player.queue player) = Some a)
  (Hrepeat : Player.trackRepeat player = true) :
  trackEnd player (Queue.current (Player.queue player)) payload
  = (player, [Emit (Event.trackEnd (Player.guild player) (Some a));
              PlayerPlay (Player.guild player)]).
Proof.
  unfold trackEnd. apply Z.eqb_neq in Hqueue. rewrite Hqueue.
  rewrite Hcurrent, Hrepeat. reflexivity.
Qed.

(** C6: with both repeats off, queue [B, C] and current A, the decision
    leaves previous = A, current = B and queue [C], and signals trackEnd for
    A and calls play. *)
Theorem trackEnd_advances (a b c : TrackData)
  (Htrack : Player.trackRepeat player = false)
  (Hwhole : Player.queueRepeat player = false)
  (Hqueue : Queue.items (Player.queue player) = [Some b; Some c])
  (Hcurrent : Queue.current (Player.queue player) = Some a) :
  trackEnd player (Some a) payload
  = (Player.set_queue {| Queue.items := [Some c];
                         Queue.current := Some b;
                         Queue.previous := Some a |} player,
     [Emit (Event.trackEnd (Player.guild player) (Some a));
      PlayerPlay (Player.guild player)]).
Proof.
  unfold trackEnd.
  rewrite length_nonzero by (rewrite Hqueue; discriminate).
  rewrite Htrack. simpl. unfold Queue.shift. simpl.
  rewrite Hqueue, Hcurrent. simpl. rewrite Hwhole. reflexivity.
Qed.

(** C7, as the code has it: with whole-queue repeat on, single-track repeat
    off, a current track A and a queue whose next entry is a track B, the
    decision leaves previous = A, current = B and the rest of the queue
    followed by A, and signals trackEnd for A and calls play. *)
Theorem trackEnd_queueRepeat (a b : TrackData) (rest : list Slot)
  (Htrack : Player.trackRepeat player = false)
  (Hwhole : Player.queueRepeat player = true)
  (Hqueue : Queue.items (Player.queue player) = Some b :: rest)
  (Hcurrent : Queue.current (Player.queue player) = Some a) :
  trackEnd player (Some a) payload
  = (Player.set_queue {| Queue.items := rest ++ [Some a];
                         Queue.current := Some b;
                         Queue.previous := Some a |} player,
     [Emit (Event.trackEnd (Player.guild player) (Some a));
      PlayerPlay (Player.guild player)]).
Proof.
  unfold trackEnd.
  rewrite length_nonzero by (rewrite Hqueue; discriminate).
  rewrite Htrack. simpl. unfold Queue.shift. simpl.
  rewrite Hqueue, Hcurrent. simpl. rewrite Hwhole. reflexivity.
Qed.

(** C2, as the code has it: when the queue reported entries, single-track
    repeat is off (so the advance is reached), the pop yields no track, and
    a finished track exists with whole-queue repeat on, the decision signals
    queueEnd and nothing else (play is not called); the finished track has
    moved to [previous], [current] is empty and the popped entry is gone. *)
Theorem trackEnd_empty_pop (a : TrackData)
  (Hreported : Queue.length (Player.queue player) <> 0)
  (Hpop : (Queue.shift (Player.queue player)).1 = None)
  (Htrack : Player.trackRepeat player = false)
  (Hwhole : Player.queueRepeat player = true) :
  let r := trackEnd player (Some a) payload in
  r = (Player.set_queue
         {| Queue.items := Queue.items (Queue.shift (Player.queue player)).2;
            Queue.current := None;
            Queue.previous := Queue.current (Player.queue player) |} player,
       [Emit (Event.queueEnd (Player.guild player) payload)])
  /\ occurrences is_queueEnd r.2 = 1%nat
  /\ occurrences is_play r.2 = 0%nat.
Proof.
  cbv zeta.
  assert (H : trackEnd player (Some a) payload
              = (Player.set_queue
                   {| Queue.items :=
                        Queue.items (Queue.shift (Player.queue player)).2;
                      Queue.current := None;
                      Queue.previous := Queue.current (Player.queue player) |}
                   player,
                 [Emit (Event.queueEnd (Player.guild player) payload)])).
  { unfold trackEnd. apply Z.eqb_neq in Hreported. rewrite Hreported.
    rewrite Htrack. simpl.
    unfold Queue.shift in *. simpl.
    destruct (Queue.items (Player.queue player)) as [|x rest]; simpl in *.
    - rewrite Hwhole. reflexivity.
    - subst x. rewrite Hwhole. reflexivity. }
  rewrite H. repeat split.
Qed.

End TrackEnd.

(** ** The decision table on concrete players *)

(** Queue [B, C], current A, trackRepeat on. *)
Lemma trackEnd_trackRepeat_witness :
  let p := sample_player true false
             (sample_queue [Some "B"; Some "C"] (Some "A"))%string in
  trackEnd p (Some "A"%string) sample_payload
  = (p, [Emit (Event.trackEnd "g1" (Some "A"%string)); PlayerPlay "g1"]).
Proof.
  apply (trackEnd_trackRepeat
           (sample_player true false
              (sample_queue [Some "B"; Some "C"] (Some "A"))%string)
           sample_payload "A"%string); [discriminate|reflexivity|reflexivity].
Defined.

(** Queue [B, C], current A, both repeats off. *)
Lemma trackEnd_advances_witness :
  trackEnd (sample_player false false
              (sample_queue [Some "B"; Some "C"] (Some "A")))%string
           (Some "A"%string) sample_payload
  = (sample_player false false
       {| Queue.items := [Some "C"]; Queue.current := Some "B";
          Queue.previous := Some "A" |}%string,
     [Emit (Event.trackEnd "g1" (Some "A"%string)); PlayerPlay "g1"]).
Proof.
  apply (trackEnd_advances
           (sample_player false false
              (sample_queue [Some "B"; Some "C"] (Some "A"))%string)
           sample_payload "A"%string "B"%string "C"%string); reflexivity.
Defined.

(** Queue [B], current A, queueRepeat on, trackRepeat off. *)
Lemma trackEnd_queueRepeat_witness :
  trackEnd (sample_player false true (sample_queue [Some "B"] (Some "A")))%string
           (Some "A"%string) sample_payload
  = (sample_player false true
       {| Queue.items := [Some "A"]; Queue.current := Some "B";
          Queue.previous := Some "A" |}%string,
     [Emit (Event.trackEnd "g1" (Some "A"%string)); PlayerPlay "g1"]).
Proof.
  apply (trackEnd_queueRepeat
           (sample_player false true
              (sample_queue [Some "B"] (Some "A"))%string)
           sample_payload "A"%string "B"%string []); reflexivity.
Defined.

(** C7 as stated fails: with queue [B], current A and whole-queue repeat on,
    but single-track repeat on as well, the decision does not advance:
    current stays A, previous stays empty and the queue stays [B].  (And
    with single-track repeat off, a queue whose next entry is empty ends in
    queueEnd with nothing re-appended.) *)
Lemma trackEnd_queueRepeat_under_trackRepeat :
  let p := sample_player true true (sample_queue [Some "B"] (Some "A"))%string in
  let r := trackEnd p (Some "A"%string) sample_payload in
  let p' := sample_player false true
              (sample_queue [None; Some "C"] (Some "A"))%string in
  let r' := trackEnd p' (Some "A"%string) sample_payload in
  Player.queueRepeat p = true
  /\ Queue.length (Player.queue p) <> 0
  /\ r.1 = p
  /\ Queue.current (Player.queue r.1) = Some "A"%string
  /\ Queue.previous (Player.queue r.1) = None
  /\ Queue.items (Player.queue r.1) = [Some "B"%string]
  /\ Queue.items (Player.queue r.1) <> [Some "A"%string]
  /\ Queue.items (Player.queue r'.1) = [Some "C"%string]
  /\ r'.2 = [Emit (Event.queueEnd "g1" sample_payload)].
Proof. cbv zeta. repeat split; discriminate. Qed.

(** A queue whose next entry is empty, current A, queueRepeat on. *)
Lemma trackEnd_empty_pop_witness :
  trackEnd (sample_player false true (sample_queue [None] (Some "A")))%string
           (Some "A"%string) sample_payload
  = (sample_player false true
       {| Queue.items := []; Queue.current := None;
          Queue.previous := Some "A" |}%string,
     [Emit (Event.queueEnd "g1" sample_payload)]).
Proof.
  exact (proj1 (trackEnd_empty_pop
           (sample_player false true
              (sample_queue [None] (Some "A"))%string)
           sample_payload "A"%string ltac:(discriminate)
           eq_refl eq_refl eq_refl)).
Defined.

(** C2 as stated fails: with whole-queue repeat off, a queue that reported
    entries and whose pop yields no track gets no queueEnd signal; when
    another entry is left behind the popped one, trackEnd is signalled and
    play is called. *)
Lemma trackEnd_empty_pop_without_queueRepeat :
  let p1 := sample_player false false (sample_queue [None] (Some "A"))%string in
  let p2 := sample_player false false
              (sample_queue [None; Some "C"] (Some "A"))%string in
  Queue.length (Player.queue p1) = 1
  /\ (Queue.shift (Player.queue p1)).1 = None
  /\ (trackEnd p1 (Some "A"%string) sample_payload).2 = []
  /\ Queue.length (Player.queue p2) = 2
  /\ (Queue.shift (Player.queue p2)).1 = None
  /\ (trackEnd p2 (Some "A"%string) sample_payload).2
     = [Emit (Event.trackEnd "g1" (Some "A"%string)); PlayerPlay "g1"]
  /\ occurrences is_queueEnd (trackEnd p2 (Some "A"%string) sample_payload).2
     = 0%nat
  /\ occurrences is_play (trackEnd p2 (Some "A"%string) sample_payload).2
     = 1%nat.
Proof. cbv zeta. repeat split. Qed.

(** ** From the inbound event to the decision *)

(** A QUEUE_END frame for a guild with a player runs the decision on that
    player's current track, stores the player it leaves under the same key
    and appends what it emitted. *)
Lemma handleTrackEvent_QUEUE_END
  (payload : Payload) (data : Payload.data) (player : Player.t) (e : Env) :
  Payload.d payload = Some data ->
  players_get (Payload.guild_id data) (players e) = Some player ->
  Payload.t payload = Some WSEvents.QUEUE_END ->
  handleTrackEvent payload e
  = let r := trackEnd player (Queue.current (Player.queue player)) payload in
    (Normal tt,
     perform r.2
       (set_players (players_store (Payload.guild_id data) r.1 (players e)) e)).
Proof.
  intros Hd Hp Ht. unfold handleTrackEvent. rewrite Hd, Hp, Ht. simpl.
  destruct (trackEnd player (Queue.current (Player.queue player)) payload).
  reflexivity.
Qed.

(** A frame for a guild without a player is dropped. *)
Lemma handleTrackEvent_no_player
  (payload : Payload) (data : Payload.data) (e : Env) :
  Payload.d payload = Some data ->
  players_get (Payload.guild_id data) (players e) = None ->
  handleTrackEvent payload e = (Normal tt, e).
Proof. intros Hd Hp. unfold handleTrackEvent. rewrite Hd, Hp. reflexivity. Qed.

(** The second row of the decision table, from the frame on. *)
Example handleTrackEvent_advances :
  handleTrackEvent sample_payload sample_env
  = (Normal tt,
     perform [Emit (Event.trackEnd "g1" (Some "A"%string)); PlayerPlay "g1"]
       (set_players
          [("g1"%string,
            sample_player false false
              {| Queue.items := [Some "C"]; Queue.current := Some "B";
                 Queue.previous := Some "A" |}%string)]
          sample_env)).
Proof. reflexivity. Qed.

(** ** The run to exhausted retries *)

(** With [retryAmount] 2: one reconnect cycle, then the second timer finds
    the counter at the limit. *)
Example run_reaches_limit :
  (exists n, objects before_last_timer !! 0%nat = Some n
             /\ reconnectAttempts n = 2
             /\ retryAmount (options n) = Some 2
             /\ reconnectTimeout n = Some 1%nat
             /\ connected n = false)
  /\ timers (env before_last_timer) !! 0%nat = None
  /\ timers (env before_last_timer) !! 1%nat
     = Some {| owner := 0%nat; delay := Some 30000 |}
  /\ trace (env before_last_timer)
     = [Emit (Event.nodeCreate 0%nat);
        SocketNew "ws://localhost:3000/";
        Emit (Event.nodeConnect 0%nat);
        Emit (Event.nodeDisconnect 0%nat 1006 "");
        SocketRemoveAllListeners;
        Emit (Event.nodeReconnect 0%nat);
        SocketNew "ws://localhost:3000/";
        Emit (Event.nodeDisconnect 0%nat 1006 "")].
Proof.
  split; [|repeat split].
  eexists. split; [vm_compute; reflexivity|]. repeat split.
Qed.

(** The last timer: one nodeError, no teardown (the socket is closed, so
    [destroy] returns at its guard), nothing pending. *)
Example run_ends_in_error :
  let w := run_timer 1%nat before_last_timer in
  trace (env w)
  = trace (env before_last_timer)
    ++ [Emit (Event.nodeError 0%nat
                (Error "Unable to connect after 2 attempts."))]
  /\ timers (env w) !! 1%nat = None
  /\ manager_node (env w) = Some 0%nat
  /\ (connected <$> objects w !! 0%nat) = Some false
  /\ (reconnectAttempts <$> objects w !! 0%nat) = Some 2.
Proof. cbv zeta. repeat split. Qed.

(** A second construction while the slot is taken changes nothing. *)
Example run_second_constructor :
  constructor two_attempts "pw2" before_last_timer
  = (Normal 0%nat, before_last_timer).
Proof. reflexivity. Qed.

(** The socket left behind closes after the Node was destroyed: its close
    handler finds the handle null and arms nothing. *)
Example stale_close_arms_nothing :
  (socket <$> objects destroyed_with_stale_socket !! 0%nat) = Some None
  /\ timers (env (call (close 1006 "") 0%nat destroyed_with_stale_socket)) = ∅
  /\ trace (env (call (close 1006 "") 0%nat destroyed_with_stale_socket))
     = [Emit (Event.nodeCreate 0%nat);
        SocketNew "ws://localhost:3000/";
        SocketNew "ws://localhost:3000/";
        Emit (Event.nodeConnect 0%nat);
        SocketClose 1000 "destroy";
        SocketRemoveAllListeners;
        Emit (Event.nodeDestroy 0%nat);
        Emit (Event.nodeDisconnect 0%nat 1006 "")].
Proof. repeat split. Qed.

(** * Further properties of the code *)

(** ** The decision, whatever the player *)

(** X1: [trackEnd] emits one of three things and nothing else: queueEnd alone,
    trackEnd followed by play, or nothing; it is silent only when it leaves
    the queue empty; and of the player it changes the queue only. *)
Theorem trackEnd_shapes (player : Player.t) (track : Slot) (payload : Payload) :
  let r := trackEnd player track payload in
  let g := Player.guild player in
  (r.2 = [Emit (Event.queueEnd g payload)]
   \/ r.2 = [Emit (Event.trackEnd g track); PlayerPlay g]
   \/ (r.2 = [] /\ Queue.items (Player.queue r.1) = []))
  /\ r.1 = Player.set_queue (Player.queue r.1) player.
Proof.
  cbv zeta. unfold trackEnd, queueEnd, play.
  destruct player as [g nd pl pa tr qr [items cur prev]]. simpl.
  destruct (Queue.length _ =? 0); simpl; [auto|].
  destruct (truthy track && tr); simpl.
  - destruct (truthy cur); simpl; auto.
  - unfold Queue.shift. simpl. destruct items as [|x rest]; simpl.
    + destruct (truthy track && qr); simpl; auto.
    + destruct (truthy track && qr); simpl.
      * destruct (truthy x); simpl; auto.
      * destruct (Queue.length _ =? 0) eqn:Hz; simpl; [|auto].
        split; [|reflexivity]. right. right. split; [reflexivity|].
        unfold Queue.length in Hz. simpl in Hz. apply Z.eqb_eq in Hz.
        destruct rest; [reflexivity|simpl in Hz; lia].
Qed.

Section Runs.

Variable payload : Payload.

(** The empty queue: queueEnd and nothing else, the player untouched,
    whatever the repeat flags and the finished track. *)
Theorem trackEnd_empty_queue (player : Player.t) (track : Slot)
  (Hempty : Queue.items (Player.queue player) = []) :
  trackEnd player track payload
  = (player, [Emit (Event.queueEnd (Player.guild player) payload)]).
Proof.
  unfold trackEnd. unfold Queue.length. rewrite Hempty. reflexivity.
Qed.

(** One finish event on a player without repeats whose next entry is a
    track. *)
Lemma finish_advances (player : Player.t) (x y : TrackData) (rest : list TrackData) :
  Player.trackRepeat player = false ->
  Player.queueRepeat player = false ->
  Queue.current (Player.queue player) = Some x ->
  Queue.items (Player.queue player) = Some <$> (y :: rest) ->
  finish payload player
  = (Player.set_queue {| Queue.items := Some <$> rest;
                         Queue.current := Some y;
                         Queue.previous := Some x |} player,
     match rest with
     | [] => []
     | _ => played (Player.guild player) x
     end).
Proof.
  intros Htr Hqr Hcur Hitems. unfold finish, trackEnd.
  unfold Queue.length. rewrite Hitems, Hcur, Htr. simpl.
  unfold Queue.shift. simpl. rewrite Hitems. simpl. rewrite Hqr. simpl.
  destruct rest; reflexivity.
Qed.

(** X2: draining a queue without repeats.  From current [a] and queued tracks
    [l], after [k <= List.length l] finish events the current track is entry [k]
    of [a :: l], the previous one entry [k - 1], and [drop k l] is left;
    trackEnd and play were emitted for the first [min k (List.length l - 1)]
    finished tracks only: the event that pops the last queued track is
    silent. *)
Theorem finishes_drain (k : nat) :
  forall (player : Player.t) (a : TrackData) (l : list TrackData),
  Player.trackRepeat player = false ->
  Player.queueRepeat player = false ->
  Queue.current (Player.queue player) = Some a ->
  Queue.items (Player.queue player) = Some <$> l ->
  (k <= List.length l)%nat ->
  finishes payload k player
  = (Player.set_queue
       {| Queue.items := Some <$> drop k l;
          Queue.current := (a :: l) !! k;
          Queue.previous := match k with
                            | O => Queue.previous (Player.queue player)
                            | S j => (a :: l) !! j
                            end |} player,
     flat_map (played (Player.guild player))
       (take (k `min` (List.length l - 1)) (a :: l))).
Proof.
  induction k as [|k IH]; intros player a l Htr Hqr Hcur Hitems Hk.
  - simpl. rewrite drop_0, <- Hitems, <- Hcur.
    destruct player as [g nd pl pa tr qr [items cur prev]]. reflexivity.
  - destruct l as [|y rest]; [simpl in Hk; lia|].
    simpl in Hk. cbn [finishes].
    rewrite (finish_advances player a y rest Htr Hqr Hcur Hitems).
    rewrite (IH (Player.set_queue {| Queue.items := Some <$> rest;
                                     Queue.current := Some y;
                                     Queue.previous := Some a |} player)
                y rest Htr Hqr eq_refl eq_refl) by lia.
    simpl. f_equal.
    destruct rest as [|z rest]; simpl.
    + rewrite Nat.min_0_r. reflexivity.
    + rewrite Nat.sub_0_r. reflexivity.
Qed.

(** One finish event under whole-queue repeat: the ring turns by one. *)
Lemma finish_cycles (player : Player.t) (x y : TrackData) (rest : list TrackData) :
  Player.trackRepeat player = false ->
  Player.queueRepeat player = true ->
  Queue.current (Player.queue player) = Some x ->
  Queue.items (Player.queue player) = Some <$> (y :: rest) ->
  finish payload player
  = (Player.set_queue {| Queue.items := Some <$> (rest ++ [x]);
                         Queue.current := Some y;
                         Queue.previous := Some x |} player,
     played (Player.guild player) x).
Proof.
  intros Htr Hqr Hcur Hitems. unfold finish, trackEnd.
  unfold Queue.length. rewrite Hitems, Hcur, Htr. simpl.
  unfold Queue.shift. simpl. rewrite Hitems. simpl. rewrite Hqr. simpl.
  unfold Queue.add. simpl. rewrite fmap_app. reflexivity.
Qed.

(** X3: whole-queue repeat turns the ring.  From current [a] and a non-empty
    queue of tracks [l], after [k <= List.length (a :: l)] finish events the
    current track followed by the queue is [a :: l] turned by [k], and
    trackEnd and play were emitted for each of the first [k] tracks of
    [a :: l] in order; after [List.length (a :: l)] events the current track and
    the queue are back where they started. *)
Theorem finishes_cycle (k : nat) :
  forall (player : Player.t) (a : TrackData) (l : list TrackData),
  Player.trackRepeat player = false ->
  Player.queueRepeat player = true ->
  Queue.current (Player.queue player) = Some a ->
  Queue.items (Player.queue player) = Some <$> l ->
  l <> [] ->
  (k <= List.length (a :: l))%nat ->
  let r := finishes payload k player in
  Queue.current (Player.queue r.1) :: Queue.items (Player.queue r.1)
  = Some <$> (drop k (a :: l) ++ take k (a :: l))
  /\ r.2 = flat_map (played (Player.guild player)) (take k (a :: l))
  /\ Player.guild r.1 = Player.guild player
  /\ (k = List.length (a :: l) ->
      Queue.current (Player.queue r.1) = Some a
      /\ Queue.items (Player.queue r.1) = Some <$> l).
Proof.
  induction k as [|k IH]; intros player a l Htr Hqr Hcur Hitems Hne Hk; cbv zeta.
  - simpl. rewrite Hcur, Hitems, app_nil_r. repeat split.
  - destruct l as [|y rest]; [contradiction|].
    cbn [finishes].
    rewrite (finish_cycles player a y rest Htr Hqr Hcur Hitems).
    specialize (IH (Player.set_queue
                      {| Queue.items := Some <$> (rest ++ [a]);
                         Queue.current := Some y;
                         Queue.previous := Some a |} player)
                   y (rest ++ [a]) Htr Hqr eq_refl eq_refl).
    cbv zeta in IH.
    destruct (finishes payload k _) as [p2 fx2] eqn:Hrun. simpl in IH |- *.
    assert (Hlen : (k <= List.length (y :: rest))%nat) by (simpl in *; lia).
    destruct IH as (Hring & Hfx & Hg & _).
    { destruct rest; discriminate. }
    { simpl. rewrite length_app. simpl in *. lia. }
    assert (Hturn : drop k (y :: rest ++ [a]) ++ take k (y :: rest ++ [a])
                    = drop k (y :: rest) ++ a :: take k (y :: rest)).
    { change (y :: rest ++ [a]) with ((y :: rest) ++ [a]).
      rewrite drop_app_le, take_app_le by exact Hlen.
      rewrite <- app_assoc. reflexivity. }
    assert (Htake : take k (y :: rest ++ [a]) = take k (y :: rest)).
    { change (y :: rest ++ [a]) with ((y :: rest) ++ [a]).
      apply take_app_le. exact Hlen. }
    rewrite Hturn in Hring. rewrite Htake in Hfx.
    split; [exact Hring|]. split; [rewrite Hfx; reflexivity|].
    split; [exact Hg|].
    intros Hfull. injection Hfull as Hfull.
    assert (Hd : drop k (y :: rest) = []) by (apply drop_ge; simpl; lia).
    assert (Ht : take k (y :: rest) = y :: rest)
      by (apply take_ge; simpl; lia).
    rewrite Hd, Ht in Hring.
    simpl in Hring. injection Hring as Hc Hi. split; assumption.
Qed.

(** X4: single-track repeat never advances: however many times the track
    finishes, the player stays as it is and each event emits trackEnd for
    the same track and calls play. *)
Theorem finishes_trackRepeat (k : nat) (player : Player.t) (a : TrackData)
  (Hrepeat : Player.trackRepeat player = true)
  (Hcurrent : Queue.current (Player.queue player) = Some a)
  (Hqueue : Queue.items (Player.queue player) <> []) :
  finishes payload k player
  = (player, mjoin (replicate k (played (Player.guild player) a))).
Proof.
  assert (Hone : finish payload player
                 = (player, played (Player.guild player) a)).
  { unfold finish, trackEnd.
    destruct (Queue.length _ =? 0) eqn:Hz.
    - unfold Queue.length in Hz. apply Z.eqb_eq in Hz.
      destruct (Queue.items (Player.queue player)); [contradiction|].
      simpl in Hz. lia.
    - rewrite Hcurrent, Hrepeat. reflexivity. }
  induction k as [|k IH]; [reflexivity|].
  cbn [finishes]. rewrite Hone, IH. reflexivity.
Qed.

End Runs.

(** ** The registry under track events *)

Lemma players_store_keys (id : option string) (p' : Player.t)
  (ps : list (string * Player.t)) :
  (players_store id p' ps).*1 = ps.*1.
Proof.
  induction ps as [|[k p] ps IH]; simpl; [reflexivity|].
  destruct (decide (id = Some k)); simpl; [reflexivity|].
  f_equal. exact IH.
Qed.

Lemma players_get_store_other (id id' : option string) (p' : Player.t)
  (ps : list (string * Player.t)) :
  id' <> id ->
  players_get id' (players_store id p' ps) = players_get id' ps.
Proof.
  intros Hne. induction ps as [|[k p] ps IH]; simpl; [reflexivity|].
  destruct (decide (id = Some k)) as [->|Hk]; simpl.
  - destruct (decide (id' = Some k)); [contradiction|reflexivity].
  - destruct (decide (id' = Some k)); [reflexivity|exact IH].
Qed.

Lemma players_get_store_same (id : option string) (p p' : Player.t)
  (ps : list (string * Player.t)) :
  players_get id ps = Some p ->
  players_get id (players_store id p' ps) = Some p'.
Proof.
  induction ps as [|[k q] ps IH]; simpl; [discriminate|].
  destruct (decide (id = Some k)) as [->|Hk]; simpl.
  - destruct (decide (Some k = Some k)); [reflexivity|contradiction].
  - destruct (decide (id = Some k)); [contradiction|exact IH].
Qed.

(** What a track event can touch: the trace grows, the registry keeps its
    keys in order, and nothing else of the environment changes. *)
Lemma handleTrackEvent_frame (payload : Payload) (e : Env) :
  let r := handleTrackEvent payload e in
  (exists fx, trace r.2 = trace e ++ fx)
  /\ (players r.2).*1 = (players e).*1
  /\ timers r.2 = timers e
  /\ next_timer r.2 = next_timer e
  /\ manager_node r.2 = manager_node e
  /\ clientID r.2 = clientID e.
Proof.
  cbv zeta. unfold handleTrackEvent.
  destruct (Payload.d payload) as [data|]; simpl;
    [|split; [exists []; rewrite app_nil_r|]; repeat split].
  destruct (players_get _ _) as [player|]; simpl;
    [|split; [exists []; rewrite app_nil_r|]; repeat split].
  destruct (is_event WSEvents.TRACK_START _); simpl.
  { split; [eauto|]. split; [apply players_store_keys|]. repeat split. }
  destruct (is_event WSEvents.QUEUE_END _); simpl.
  { destruct (trackEnd _ _ _) as [p1 fx]. simpl.
    split; [eauto|]. split; [apply players_store_keys|]. repeat split. }
  destruct (is_event WSEvents.TRACK_ERROR _); simpl.
  { destruct (trackEnd _ _ _) as [p1 fx]. simpl.
    split; [rewrite <- app_assoc; eauto|].
    split; [apply players_store_keys|]. repeat split. }
  split; [eauto|]. repeat split.
Qed.

(** X5: A track event changes no player but the one its frame names: whatever
    the frame, the registry keeps its keys in order and every other guild
    looks up the player it did before. *)
Theorem handleTrackEvent_isolated
  (payload : Payload) (data : Payload.data) (other : option string) (e : Env)
  (Hdata : Payload.d payload = Some data)
  (Hother : other <> Payload.guild_id data) :
  let r := handleTrackEvent payload e in
  players_get other (players r.2) = players_get other (players e)
  /\ (players r.2).*1 = (players e).*1.
Proof.
  cbv zeta. split; [|apply (handleTrackEvent_frame payload e)].
  unfold handleTrackEvent. rewrite Hdata.
  destruct (players_get (Payload.guild_id data) (players e)) as [player|];
    [|reflexivity].
  destruct (is_event WSEvents.TRACK_START _); simpl.
  { apply players_get_store_other. exact Hother. }
  destruct (is_event WSEvents.QUEUE_END _); simpl.
  { destruct (trackEnd _ _ _) as [p1 fx]. simpl.
    apply players_get_store_other. exact Hother. }
  destruct (is_event WSEvents.TRACK_ERROR _); simpl.
  { destruct (trackEnd _ _ _) as [p1 fx]. simpl.
    apply players_get_store_other. exact Hother. }
  reflexivity.
Qed.

(** X6: QUEUE_END and TRACK_ERROR run the same decision on the player's current
    track: a later lookup of the guild sees the player the decision left,
    and the trace gains the decision's effects, after a trackError signal
    when the frame is TRACK_ERROR. *)
Theorem handleTrackEvent_decision
  (payload : Payload) (data : Payload.data) (player : Player.t) (e : Env)
  (Hdata : Payload.d payload = Some data)
  (Hplayer : players_get (Payload.guild_id data) (players e) = Some player)
  (Hkind : Payload.t payload = Some WSEvents.QUEUE_END
           \/ Payload.t payload = Some WSEvents.TRACK_ERROR) :
  let r := handleTrackEvent payload e in
  let decision := trackEnd player (Queue.current (Player.queue player)) payload in
  r.1 = Normal tt
  /\ players_get (Payload.guild_id data) (players r.2) = Some decision.1
  /\ trace r.2
     = trace e
       ++ (if is_event WSEvents.TRACK_ERROR (Payload.t payload)
           then [Emit (Event.trackError payload)] else [])
       ++ decision.2.
Proof.
  cbv zeta. unfold handleTrackEvent. rewrite Hdata, Hplayer.
  destruct Hkind as [-> | ->]; simpl;
    destruct (trackEnd player _ payload) as [p1 fx]; simpl.
  - split; [reflexivity|].
    split; [apply (players_get_store_same _ player); exact Hplayer|reflexivity].
  - split; [reflexivity|].
    split; [apply (players_get_store_same _ player); exact Hplayer|].
    rewrite <- app_assoc. reflexivity.
Qed.

(** TRACK_START marks the player playing and not paused, leaves its queue
    and repeat flags alone, and signals trackStart with the current
    track. *)
Theorem handleTrackEvent_TRACK_START
  (payload : Payload) (data : Payload.data) (player : Player.t) (e : Env)
  (Hdata : Payload.d payload = Some data)
  (Hplayer : players_get (Payload.guild_id data) (players e) = Some player)
  (Hkind : Payload.t payload = Some WSEvents.TRACK_START) :
  let r := handleTrackEvent payload e in
  r.1 = Normal tt
  /\ players_get (Payload.guild_id data) (players r.2)
     = Some (Player.set_paused false (Player.set_playing true player))
  /\ trace r.2
     = trace e ++ [Emit (Event.trackStart (Player.guild player)
                           (Queue.current (Player.queue player)) payload)].
Proof.
  cbv zeta. unfold handleTrackEvent. rewrite Hdata, Hplayer, Hkind. simpl.
  split; [reflexivity|].
  split; [apply (players_get_store_same _ player); exact Hplayer|reflexivity].
Qed.

(** ** Inbound dispatch *)

Lemma appended_app (e e' : Env) (fx : list Effect) :
  trace e' = trace e ++ fx -> appended e e' = fx.
Proof. intros H. unfold appended. rewrite H. apply drop_app_length. Qed.

(** A frame with neither [op] nor [t] does nothing: no signal, no call, no
    exception, the session as it was. *)
Theorem message_neither_op_nor_t
  (frame : Frame.frame) (this : NodeId) (n : Node) (s : Session)
  (Hop : Frame.op frame = None)
  (Ht : Frame.t frame = None) :
  message frame this n s = (Normal tt, s).
Proof. unfold message, message_op, message_t. rewrite Hop, Ht. reflexivity. Qed.

(** X10: HELLO on a Node whose handle is null: nodeHello is signalled, then the
    identify write throws, and the event switch never runs; whatever [t]
    the frame carries (READY included), the token, the environment and the
    players stay as they were. *)
Theorem message_HELLO_without_socket
  (frame : Frame.frame) (this : NodeId) (n : Node) (s : Session)
  (Hop : Frame.op frame = Some WSOpCodes.HELLO)
  (Hsocket : socket n = None) :
  message frame this n s
  = (Throw (TypeError null_send_message), notice (Dispatch.nodeHello this) s).
Proof.
  unfold message, message_op. rewrite Hop, Hsocket. reflexivity.
Qed.

(** HELLO on a Node that holds a socket: nodeHello, then the identify frame
    is written, and the event switch runs on the session so extended. *)
Theorem message_HELLO
  (frame : Frame.frame) (this : NodeId) (n : Node) (s : Session) (ws : WebSocket)
  (Hop : Frame.op frame = Some WSOpCodes.HELLO)
  (Hsocket : socket n = Some ws) :
  message frame this n s
  = message_t frame
      (notice (Dispatch.identify identify_text)
         (notice (Dispatch.nodeHello this) s))
  /\ JSON_stringify (JObject [("op"%string, JNumber (Integral 10 eq_refl))])
     = Normal (Some identify_text)
  /\ startsWith "{" identify_text = true.
Proof.
  split; [|split; reflexivity].
  unfold message, message_op. rewrite Hop, Hsocket. reflexivity.
Qed.

(** An opcode other than HELLO and VOICE_STATE_UPDATE never throws: it
    signals nodeUnknownOpcode with the frame and the event switch runs
    next. *)
Theorem message_unknown_opcode
  (frame : Frame.frame) (code : Z) (this : NodeId) (n : Node) (s : Session)
  (Hop : Frame.op frame = Some code)
  (Hhello : code <> WSOpCodes.HELLO)
  (Hvoice : code <> WSOpCodes.VOICE_STATE_UPDATE) :
  message frame this n s
  = message_t frame (notice (Dispatch.nodeUnknownOpcode frame) s).
Proof.
  unfold message, message_op. rewrite Hop.
  apply Z.eqb_neq in Hhello, Hvoice. rewrite Hhello, Hvoice. reflexivity.
Qed.

(** A frame whose name no case of the track handler matches. *)
Lemma handleTrackEvent_unhandled
  (payload : Payload) (data : Payload.data) (e : Env) :
  Payload.d payload = Some data ->
  is_event WSEvents.TRACK_START (Payload.t payload) = false ->
  is_event WSEvents.QUEUE_END (Payload.t payload) = false ->
  is_event WSEvents.TRACK_ERROR (Payload.t payload) = false ->
  handleTrackEvent payload e
  = (Normal tt,
     match players_get (Payload.guild_id data) (players e) with
     | Some _ => emit (Event.nodeUnknownEvent payload) e
     | None => e
     end).
Proof.
  intros Hd H1 H2 H3. unfold handleTrackEvent. rewrite Hd, H1, H2, H3.
  destruct (players_get _ _); reflexivity.
Qed.

(** X8: the event names that the constants declare but no case handles
    (TRACK_ADD, TRACKS_ADD, TRACK_FINISH, QUEUE_STATE_UPDATE,
    AUDIO_PLAYER_STATUS) end in nodeUnknownEvent when the guild has a
    player, which the frame leaves untouched, and in nothing at all when it
    has none. *)
Theorem message_unhandled_events
  (name : string) (frame : Frame.frame) (data : Frame.Data.t)
  (this : NodeId) (n : Node) (s : Session)
  (Hname : In name [WSEvents.TRACK_ADD; WSEvents.TRACKS_ADD;
                    WSEvents.TRACK_FINISH; WSEvents.QUEUE_STATE_UPDATE;
                    WSEvents.AUDIO_PLAYER_STATUS])
  (Hop : Frame.op frame = None)
  (Ht : Frame.t frame = Some name)
  (Hd : Frame.d frame = Some data) :
  message frame this n s
  = (Normal tt,
     match players_get (Frame.Data.guild_id data) (players (session_env s)) with
     | Some _ =>
         {| session_env :=
              emit (Event.nodeUnknownEvent (Frame.payload frame)) (session_env s);
            session_token := session_token s;
            dispatched :=
              dispatched s
              ++ [Dispatch.track
                    (Emit (Event.nodeUnknownEvent (Frame.payload frame)))] |}
     | None => s
     end).
Proof.
  unfold message, message_op. rewrite Hop. unfold message_t. rewrite Ht.
  assert (Hskip : is_event WSEvents.READY (Some name) = false
                  /\ is_event WSEvents.VOICE_CONNECTION_READY (Some name) = false
                  /\ is_event WSEvents.VOICE_CONNECTION_ERROR (Some name) = false
                  /\ is_event WSEvents.VOICE_CONNECTION_DISCONNECT (Some name) = false
                  /\ is_event WSEvents.AUDIO_PLAYER_ERROR (Some name) = false
                  /\ is_event WSEvents.TRACK_START (Some name) = false
                  /\ is_event WSEvents.QUEUE_END (Some name) = false
                  /\ is_event WSEvents.TRACK_ERROR (Some name) = false).
  { simpl in Hname.
    destruct Hname as [<-|[<-|[<-|[<-|[<-|[]]]]]]; repeat split. }
  destruct Hskip as (-> & -> & -> & -> & -> & H1 & H2 & H3).
  rewrite (handleTrackEvent_unhandled (Frame.payload frame)
             {| Payload.guild_id := Frame.Data.guild_id data |});
    [|simpl; rewrite Hd; reflexivity|simpl; rewrite Ht; assumption..].
  simpl. destruct (players_get _ _) as [player|]; simpl.
  - rewrite (appended_app _ _ [Emit (Event.nodeUnknownEvent
                                       (Frame.payload frame))]);
      reflexivity.
  - rewrite (appended_app _ _ []) by (rewrite app_nil_r; reflexivity).
    simpl. rewrite app_nil_r. destruct s. reflexivity.
Qed.

(** X9: READY stores the token the frame delivers (an absent one included) and
    the next request is authorised with it; a READY frame without [d]
    throws before anything is stored or signalled. *)
Theorem message_READY_token
  (frame : Frame.frame) (this : NodeId) (n : Node) (s : Session)
  (method : Method) (path : string) (body : JsValue) (text : option string)
  (Hop : Frame.op frame = None)
  (Ht : Frame.t frame = Some WSEvents.READY)
  (Hbody : JSON_stringify (if ToBoolean body then body else JObject [])
           = Normal text) :
  match Frame.d frame with
  | Some data =>
      message frame this n s
      = (Normal tt,
         notice (Dispatch.ready frame)
           (set_session_token (Frame.Data.access_token data) s))
      /\ exists request,
          makeRequest method path body n (session_token (message frame this n s).2)
          = Normal request
          /\ request_Authorization request = Frame.Data.access_token data
  | None =>
      message frame this n s
      = (Throw (TypeError (undefined_field_message "access_token")), s)
  end.
Proof.
  unfold message, message_op. rewrite Hop. unfold message_t. rewrite Ht.
  simpl. destruct (Frame.d frame) as [data|]; [|reflexivity].
  split; [reflexivity|].
  unfold makeRequest. rewrite Hbody. simpl. eauto.
Qed.

(** [dispatched] only grows. *)
Ltac grows :=
  first [ eexists; reflexivity
        | exists []; symmetry; apply app_nil_r
        | eexists; simpl; rewrite <- ?app_assoc; reflexivity ].

(** A branch that leaves the session's fields as they were. *)
Ltac same_session :=
  repeat split; solve [ reflexivity | grows | intros; reflexivity ].

(** X7: whatever the frame, [message] arms no timer, leaves the Manager's slot
    and the registry's keys alone, only adds to what was dispatched, and
    changes the token only on READY. *)
Theorem message_frame
  (frame : Frame.frame) (this : NodeId) (n : Node) (s : Session) :
  let r := message frame this n s in
  timers (session_env r.2) = timers (session_env s)
  /\ manager_node (session_env r.2) = manager_node (session_env s)
  /\ (players (session_env r.2)).*1 = (players (session_env s)).*1
  /\ (exists more, dispatched r.2 = dispatched s ++ more)
  /\ (is_event WSEvents.READY (Frame.t frame) = false ->
      session_token r.2 = session_token s).
Proof.
  cbv zeta.
  assert (Ht : forall s0,
             timers (session_env (message_t frame s0).2) = timers (session_env s0)
             /\ manager_node (session_env (message_t frame s0).2)
                = manager_node (session_env s0)
             /\ (players (session_env (message_t frame s0).2)).*1
                = (players (session_env s0)).*1
             /\ (exists more, dispatched (message_t frame s0).2
                              = dispatched s0 ++ more)
             /\ (is_event WSEvents.READY (Frame.t frame) = false ->
                 session_token (message_t frame s0).2 = session_token s0)).
  { intros s0. unfold message_t.
    destruct (Frame.t frame) as [name|]; simpl; [|same_session].
    destruct (String.eqb name WSEvents.READY) eqn:Hready.
    { destruct (Frame.d frame); simpl; repeat split;
        solve [grows | intros; discriminate]. }
    destruct (String.eqb name WSEvents.VOICE_CONNECTION_READY);
      [simpl; same_session|].
    destruct (String.eqb name WSEvents.VOICE_CONNECTION_ERROR);
      [simpl; same_session|].
    destruct (String.eqb name WSEvents.VOICE_CONNECTION_DISCONNECT);
      [simpl; same_session|].
    destruct (String.eqb name WSEvents.AUDIO_PLAYER_ERROR);
      [simpl; same_session|].
    pose proof (handleTrackEvent_frame (Frame.payload frame) (session_env s0))
      as (_ & Hkeys & Htimers & _ & Hslot & _).
    destruct (handleTrackEvent _ _) as [c e']. simpl in *.
    repeat split; solve [assumption | grows]. }
  unfold message, message_op.
  destruct (Frame.op frame) as [code|]; [|apply Ht].
  destruct (code =? WSOpCodes.HELLO).
  { destruct (socket n); simpl; [|same_session].
    destruct (Ht (notice (Dispatch.identify identify_text)
                    (notice (Dispatch.nodeHello this) s)))
      as (H1 & H2 & H3 & [more H4] & H5).
    repeat split; try assumption.
    exists ([Dispatch.nodeHello this; Dispatch.identify identify_text] ++ more).
    rewrite H4. simpl. rewrite <- !app_assoc. reflexivity. }
  destruct (code =? WSOpCodes.VOICE_STATE_UPDATE).
  { destruct (Frame.d frame) as [data|]; simpl; [|same_session].
    destruct (Frame.Data.d data) as [inner|]; simpl; [|same_session].
    destruct (Ht (notice (Dispatch.voiceStateUpdate
                            (Frame.Inner.guild_id inner) data) s))
      as (H1 & H2 & H3 & [more H4] & H5).
    repeat split; try assumption.
    eexists. rewrite H4. simpl. rewrite <- app_assoc. reflexivity. }
  simpl.
  destruct (Ht (notice (Dispatch.nodeUnknownOpcode frame) s))
    as (H1 & H2 & H3 & [more H4] & H5).
  repeat split; try assumption.
  eexists. rewrite H4. simpl. rewrite <- app_assoc. reflexivity.
Qed.

(** ** The supervisor, method against method *)

Section Compose.

Variable this : NodeId.

(** X11: A second [connect()] before the socket opens dials again: the Node is
    not connected after the first call, so the guard lets the second one
    through, and two sockets were created. *)
Theorem connect_twice_dials_twice (n : Node) (e : Env)
  (Hdown : connected n = false) :
  let once := connect this n e in
  let twice := connect this once.1 once.2 in
  connected once.1 = false
  /\ trace twice.2
     = trace e ++ [SocketNew (address (options n));
                   SocketNew (address (options n))]
  /\ twice.1 = once.1.
Proof.
  cbv zeta. unfold connect. rewrite Hdown. simpl.
  split; [reflexivity|]. split; [|reflexivity].
  rewrite <- app_assoc. reflexivity.
Qed.

(** X12: no method of the Node makes it connected: a Node that is not connected
    is not connected after [connect], [destroy], [open], [close], [error]
    or a timer of its own. *)
Theorem methods_never_connect
  (n : Node) (e : Env) (code : Z) (reason : string) (err : option JsError)
  (id : TimerId)
  (Hdown : connected n = false) :
  connected (connect this n e).1 = false
  /\ connected (destroy this n e).1 = false
  /\ connected (open this n e).1 = false
  /\ connected (close code reason this n e).1 = false
  /\ connected (error err this n e).1 = false
  /\ connected (timeout_fires id this n e).2.1 = false.
Proof.
  split; [unfold connect; rewrite Hdown; reflexivity|].
  split; [apply destroy_disconnects|].
  split; [exact Hdown|].
  split.
  { unfold close, reconnect.
    destruct (negb (code =? 1000) || negb (String.eqb reason "destroy"));
      [|exact Hdown].
    destruct (socket n) eqn:Hs; simpl; [|exact Hdown].
    unfold connected in *. simpl. rewrite Hs. rewrite Hs in Hdown.
    exact Hdown. }
  split; [destruct err; exact Hdown|].
  unfold timeout_fires. destruct (timers e !! id) as [tm|]; [|exact Hdown].
  destruct (decide (owner tm = this)); [|exact Hdown].
  unfold reconnect_timeout.
  destruct (ge_number _ _); [apply destroy_disconnects|].
  destruct (socket n); [reflexivity|exact Hdown].
Qed.

(** X13: only the close handler arms a timer: after any other method every
    pending timer was pending before. *)
Theorem only_close_arms
  (n : Node) (e : Env) (err : option JsError) (id : TimerId)
  (data : JsValue) (payload : Payload) :
  timers (connect this n e).2 = timers e
  /\ timers (destroy this n e).2 ⊆ timers e
  /\ timers (open this n e).2 ⊆ timers e
  /\ timers (error err this n e).2 = timers e
  /\ timers (timeout_fires id this n e).2.2 ⊆ timers e
  /\ timers (send data n e).2 = timers e
  /\ timers (handleTrackEvent payload e).2 = timers e.
Proof.
  split; [unfold connect; destruct (connected n); reflexivity|].
  split.
  { rewrite destroy_timers. destruct (connected n); [|reflexivity].
    destruct (reconnectTimeout n); [apply delete_subseteq|reflexivity]. }
  split.
  { unfold open. simpl. destruct (reconnectTimeout n); simpl;
      [apply delete_subseteq|reflexivity]. }
  split; [destruct err; reflexivity|].
  split.
  { unfold timeout_fires. destruct (timers e !! id) as [tm|]; [|reflexivity].
    destruct (decide (owner tm = this)); [|reflexivity].
    unfold reconnect_timeout. destruct (ge_number _ _).
    - simpl. rewrite destroy_timers. simpl.
      destruct (connected n); [|apply delete_subseteq].
      destruct (reconnectTimeout n); [|apply delete_subseteq].
      etrans; apply delete_subseteq.
    - destruct (socket n); simpl; apply delete_subseteq. }
  split.
  { destruct (send_env data n e) as [->|[frame ->]]; reflexivity. }
  apply (handleTrackEvent_frame payload e).
Qed.

(** X15: [open] after an unexpected close cancels the timer that close armed:
    the pending timers are those from before the close; the attempt counter
    is not reset. *)
Theorem open_cancels_reconnect
  (code : Z) (reason : string) (n : Node) (e : Env) (ws : WebSocket)
  (Hfresh : timers_fresh e)
  (Hunexpected : code <> 1000 \/ reason <> "destroy"%string)
  (Hsocket : socket n = Some ws) :
  let closed := close code reason this n e in
  let opened := open this closed.1 closed.2 in
  timers opened.2 = timers e
  /\ trace opened.2
     = trace e ++ [Emit (Event.nodeDisconnect this code reason);
                   Emit (Event.nodeConnect this)]
  /\ reconnectAttempts opened.1 = reconnectAttempts n.
Proof.
  cbv zeta.
  rewrite (close_unexpected _ _ _ _ _ Hunexpected),
    (reconnect_arms _ _ _ ws Hsocket).
  unfold open. simpl. split; [|split; [|reflexivity]].
  - apply delete_insert_id.
    destruct (timers e !! next_timer e) as [x|] eqn:Hx; [|reflexivity].
    assert (next_timer e < next_timer e)%nat by (apply Hfresh; eauto). lia.
  - rewrite <- app_assoc. reflexivity.
Qed.

(** X16: [destroy()] does not stop a reconnect that is pending while the socket
    is not open: it returns at its guard, the timer stays armed, and when
    it fires below the limit the Node reconnects all the same. *)
Theorem destroy_leaves_pending_reconnect
  (code : Z) (reason : string) (n : Node) (e : Env) (ws : WebSocket) (limit : Z)
  (Hunexpected : code <> 1000 \/ reason <> "destroy"%string)
  (Hsocket : socket n = Some ws)
  (Hdown : connected n = false)
  (Hlimit : retryAmount (options n) = Some limit)
  (Hbelow : reconnectAttempts n < limit) :
  let closed := close code reason this n e in
  let destroyed := destroy this closed.1 closed.2 in
  let fired := timeout_fires (next_timer e) this destroyed.1 destroyed.2 in
  destroyed = closed
  /\ timers destroyed.2 !! next_timer e
     = Some {| owner := this; delay := retryDelay (options n) |}
  /\ fired.1 = Normal tt
  /\ reconnectAttempts fired.2.1 = reconnectAttempts n + 1
  /\ (readyState <$> socket fired.2.1) = Some CONNECTING
  /\ trace fired.2.2
     = trace e ++ [Emit (Event.nodeDisconnect this code reason);
                   SocketRemoveAllListeners;
                   Emit (Event.nodeReconnect this);
                   SocketNew (address (options n))].
Proof.
  cbv zeta.
  rewrite (close_unexpected _ _ _ _ _ Hunexpected),
    (reconnect_arms _ _ _ ws Hsocket).
  rewrite destroy_disconnected
    by (unfold connected in *; simpl; rewrite Hsocket in *; exact Hdown).
  simpl. split; [reflexivity|]. split; [apply lookup_insert_eq|].
  unfold timeout_fires. simpl. rewrite lookup_insert_eq. simpl.
  destruct (decide (this = this)); [|contradiction].
  unfold reconnect_timeout. simpl. rewrite Hlimit, Hsocket. simpl.
  apply Z.leb_gt in Hbelow. rewrite Hbelow. simpl.
  repeat split. rewrite <- !app_assoc. reflexivity.
Qed.

(** One failed cycle below the limit. *)
Lemma failed_cycle_step (n : Node) (e : Env) (ws : WebSocket) (id : TimerId)
  (tm : Timer) (limit : Z) :
  socket n = Some ws ->
  reconnectTimeout n = Some id ->
  timers e !! id = Some tm ->
  owner tm = this ->
  retryAmount (options n) = Some limit ->
  reconnectAttempts n < limit ->
  let st := failed_cycle this (n, e) in
  options st.1 = options n
  /\ reconnectAttempts st.1 = reconnectAttempts n + 1
  /\ (readyState <$> socket st.1) = Some CLOSED
  /\ reconnectTimeout st.1 = Some (next_timer e)
  /\ timers st.2 !! next_timer e
     = Some {| owner := this; delay := retryDelay (options n) |}
  /\ trace st.2 = trace e ++ cycle_effects this (options n).
Proof.
  intros Hsocket Hhandle Hpending Howner Hlimit Hbelow. cbv zeta.
  unfold failed_cycle. simpl. rewrite Hhandle.
  unfold timeout_fires. rewrite Hpending.
  destruct (decide (owner tm = this)); [|contradiction].
  unfold reconnect_timeout. rewrite Hlimit, Hsocket. simpl.
  apply Z.leb_gt in Hbelow. rewrite Hbelow. simpl.
  repeat split.
  - apply lookup_insert_eq.
  - unfold cycle_effects. rewrite <- !app_assoc. reflexivity.
Qed.

(** At the limit, on a Node that is not connected, the timer signals the
    error and that is all. *)
Lemma timeout_fires_at_limit (n : Node) (e : Env) (id : TimerId) (tm : Timer)
  (limit : Z) :
  timers e !! id = Some tm ->
  owner tm = this ->
  retryAmount (options n) = Some limit ->
  limit <= reconnectAttempts n ->
  connected n = false ->
  timeout_fires id this n e
  = (Normal tt,
     (n, emit (Event.nodeError this (Error (exhausted_message (options n))))
           (set_timers (delete id (timers e)) e))).
Proof.
  intros Hpending Howner Hlimit Hreached Hdown.
  unfold timeout_fires. rewrite Hpending.
  destruct (decide (owner tm = this)); [|contradiction].
  unfold reconnect_timeout. rewrite Hlimit. simpl.
  apply Z.leb_le in Hreached. rewrite Hreached.
  rewrite destroy_disconnected by exact Hdown. reflexivity.
Qed.

Lemma join_replicate_snoc {A : Type} (k : nat) (x : list A) :
  mjoin (replicate k x) ++ x = x ++ mjoin (replicate k x).
Proof.
  induction k as [|k IH]; simpl; [rewrite app_nil_r; reflexivity|].
  rewrite <- app_assoc, IH. reflexivity.
Qed.

(** X17: the retry budget.  From a Node whose socket is down, whose reconnect
    timer is pending and whose counter is [k] below the limit or more, [k]
    failed cycles in a row each reconnect (strip, nodeReconnect, dial,
    nodeDisconnect) and count one attempt; when the counter has reached
    the limit, the next timer signals the error of exhausted retries and
    changes nothing else. *)
Theorem retry_budget (k : nat) :
  forall (n : Node) (e : Env) (ws : WebSocket) (id : TimerId) (tm : Timer)
         (limit : Z),
  socket n = Some ws ->
  connected n = false ->
  reconnectTimeout n = Some id ->
  timers e !! id = Some tm ->
  owner tm = this ->
  retryAmount (options n) = Some limit ->
  reconnectAttempts n + Z.of_nat k <= limit ->
  let st := Nat.iter k (failed_cycle this) (n, e) in
  options st.1 = options n
  /\ reconnectAttempts st.1 = reconnectAttempts n + Z.of_nat k
  /\ trace st.2
     = trace e ++ mjoin (replicate k (cycle_effects this (options n)))
  /\ connected st.1 = false
  /\ is_Some (socket st.1)
  /\ (exists id', reconnectTimeout st.1 = Some id'
        /\ (exists tm', timers st.2 !! id' = Some tm' /\ owner tm' = this)
        /\ (reconnectAttempts n + Z.of_nat k = limit ->
            timeout_fires id' this st.1 st.2
            = (Normal tt,
               (st.1,
                emit (Event.nodeError this
                        (Error (exhausted_message (options n))))
                  (set_timers (delete id' (timers st.2)) st.2))))).
Proof.
  induction k as [|k IH];
    intros n e ws id tm limit Hsocket Hdown Hhandle Hpending Howner Hlimit Hk;
    cbv zeta.
  - simpl. rewrite Z.add_0_r, app_nil_r.
    repeat split; [exact Hdown|eauto|].
    exists id. split; [exact Hhandle|]. split; [eauto|].
    intros Hfull.
    apply (timeout_fires_at_limit n e id tm limit); try assumption. lia.
  - rewrite Nat.iter_succ.
    destruct (IH n e ws id tm limit Hsocket Hdown Hhandle Hpending Howner
                Hlimit ltac:(lia))
      as (Hopt & Hcount & Htrace & Hdown' & [ws' Hsocket']
          & id' & Hhandle' & (tm' & Hpending' & Howner') & _).
    destruct (Nat.iter k (failed_cycle this) (n, e)) as [n1 e1] eqn:Hrun.
    simpl in Hopt, Hcount, Htrace, Hdown', Hsocket', Hhandle', Hpending'.
    rewrite <- Hopt in Hlimit.
    destruct (failed_cycle_step n1 e1 ws' id' tm' limit Hsocket' Hhandle'
                Hpending' Howner' Hlimit ltac:(lia))
      as (Hopt2 & Hcount2 & Hstate2 & Hhandle2 & Hpending2 & Htrace2).
    destruct (failed_cycle this (n1, e1)) as [n2 e2] eqn:Hstep.
    simpl in Hopt2, Hcount2, Hstate2, Hhandle2, Hpending2, Htrace2 |- *.
    assert (Hdown2 : connected n2 = false).
    { unfold connected. destruct (socket n2) as [w|]; [|reflexivity].
      simpl in Hstate2. injection Hstate2 as ->. reflexivity. }
    split; [congruence|]. split; [lia|]. split.
    { rewrite Htrace2, Htrace, Hopt, <- app_assoc. f_equal.
      exact (join_replicate_snoc k (cycle_effects this (options n))). }
    split; [exact Hdown2|]. split.
    { destruct (socket n2); [eauto|discriminate]. }
    exists (next_timer e1). split; [exact Hhandle2|]. split; [eauto|].
    intros Hfull. rewrite <- Hopt, <- Hopt2.
    apply (timeout_fires_at_limit n2 e2 (next_timer e1)
             {| owner := this; delay := retryDelay (options n1) |} limit);
      [exact Hpending2|reflexivity|congruence|lia|exact Hdown2].
Qed.

End Compose.

(** ** Teardown *)

Section Teardown.

Variable this : NodeId.

Lemma destroy_players_spec (g : string) (ps : list (string * Player.t)) :
  In (PlayerDestroy g) (destroy_players this ps)
  <-> exists k p, In (k, p) ps /\ Player.node p = this /\ Player.guild p = g.
Proof.
  unfold destroy_players. rewrite in_flat_map. split.
  - intros [[k p] [Hin Hfx]]. simpl in Hfx.
    destruct (decide (Player.node p = this)) as [Hn|]; [|contradiction].
    destruct Hfx as [[= Hg]|[]]. eauto.
  - intros (k & p & Hin & Hn & Hg). exists (k, p). split; [exact Hin|].
    simpl. destruct (decide (Player.node p = this)); [|contradiction].
    left. rewrite Hg. reflexivity.
Qed.

(** X18: [destroy()] on a connected Node: the handle is nulled, the counter is
    back at 1, the timer the handle names is cancelled, the Manager's slot
    is cleared; the players torn down are exactly those of the registry
    bound to this Node, before the socket is closed with (1000, destroy),
    its listeners are removed and nodeDestroy is signalled. *)
Theorem destroy_teardown (n : Node) (e : Env)
  (Hup : connected n = true) :
  let r := destroy this n e in
  socket r.1 = None
  /\ reconnectAttempts r.1 = 1
  /\ options r.1 = options n
  /\ manager_node r.2 = None
  /\ (forall h, reconnectTimeout n = Some h -> timers r.2 !! h = None)
  /\ trace r.2
     = trace e ++ destroy_players this (players e)
       ++ [SocketClose 1000 "destroy"; SocketRemoveAllListeners;
           Emit (Event.nodeDestroy this)]
  /\ (forall g, In (PlayerDestroy g) (destroy_players this (players e))
                <-> exists k p, In (k, p) (players e)
                                /\ Player.node p = this
                                /\ Player.guild p = g).
Proof.
  cbv zeta.
  destruct (destroy_connected this n e Hup) as (H1 & H2 & H3 & H4 & H5).
  split; [exact H1|]. split; [exact H2|].
  split; [unfold destroy; rewrite Hup; reflexivity|].
  split; [exact H3|]. split.
  { intros h Hh. rewrite H4, Hh. apply lookup_delete_eq. }
  split; [exact H5|]. intros g. apply destroy_players_spec.
Qed.

End Teardown.

(** ** Construction and the first dial *)

(** X19: two constructions in a row give one Node: the second returns the
    reference of the first and changes nothing, whatever options it is
    given, so the object keeps the options of the first call and nodeCreate
    was signalled once. *)
Theorem constructor_twice
  (o1 o2 : GivenOptions) (p1 p2 : string) (w : World)
  (Hstatic : static_manager w = true)
  (Hslot : manager_node (env w) = None) :
  let first := constructor o1 p1 w in
  let second := constructor o2 p2 first.2 in
  first.1 = Normal (next_object w)
  /\ second = first
  /\ (options <$> objects second.2 !! next_object w)
     = Some (with_defaults p1 o1)
  /\ trace (env second.2)
     = trace (env w) ++ [Emit (Event.nodeCreate (next_object w))].
Proof.
  cbv zeta. unfold constructor. rewrite Hstatic, Hslot. simpl.
  repeat split. rewrite lookup_insert_eq. reflexivity.
Qed.

(** Without the static manager the constructor throws the RangeError and
    builds nothing, whatever the slot holds. *)
Theorem constructor_without_manager
  (o : GivenOptions) (random_password : string) (w : World)
  (Hstatic : static_manager w = false) :
  constructor o random_password w = (Throw not_initiated, w).
Proof. unfold constructor. rewrite Hstatic. reflexivity. Qed.

Lemma append_assoc (a b c : string) : (a +:+ b) +:+ c = a +:+ (b +:+ c).
Proof.
  induction a as [|x a IH]; [reflexivity|].
  change (String x ((a +:+ b) +:+ c) = String x (a +:+ (b +:+ c))).
  rewrite IH. reflexivity.
Qed.

Lemma length_append (a b : string) :
  String.length (a +:+ b) = (String.length a + String.length b)%nat.
Proof.
  induction a as [|x a IH]; [reflexivity|].
  change (S (String.length (a +:+ b)) = S (String.length a + String.length b)).
  rewrite IH. reflexivity.
Qed.

Lemma characters_get (i : nat) :
  (i < 35)%nat ->
  exists c, String.get i characters = Some c
            /\ In c (list_ascii_of_string characters).
Proof.
  intros Hi.
  do 35 (destruct i as [|i]; [eexists; split; [reflexivity|simpl; tauto]|]).
  lia.
Qed.

Lemma generateRandomPassword_fold (draw : nat -> nat) (l : list nat) :
  forall acc : string,
  (forall i, In i l -> (draw i < 35)%nat) ->
  let out := foldl (fun password i => password +:+ char_at characters (draw i))
                   acc l in
  String.length out = (String.length acc + List.length l)%nat
  /\ (Forall (fun c => In c (list_ascii_of_string characters))
             (list_ascii_of_string acc) ->
      Forall (fun c => In c (list_ascii_of_string characters))
             (list_ascii_of_string out)).
Proof.
  induction l as [|i l IH]; intros acc Hdraw; cbv zeta.
  - simpl. split; [lia|auto].
  - simpl.
    destruct (characters_get (draw i)) as (c & Hget & Hin);
      [apply Hdraw; left; reflexivity|].
    destruct (IH (acc +:+ char_at characters (draw i))) as [Hlen Hall].
    { intros j Hj. apply Hdraw. right. exact Hj. }
    cbv zeta in Hlen, Hall. split.
    + rewrite Hlen, length_append. unfold char_at. rewrite Hget. simpl. lia.
    + intros Hacc. apply Hall. unfold char_at. rewrite Hget.
      clear - Hacc Hin. induction acc as [|x acc IHacc].
      * constructor; [exact Hin|constructor].
      * change (list_ascii_of_string (String x acc +:+ String c ""))
          with (x :: list_ascii_of_string (acc +:+ String c "")).
        simpl in Hacc. inversion Hacc; subst.
        constructor; [assumption|apply IHacc; assumption].
Qed.

(** X20: the generated password has exactly 22 characters, each taken from the
    alphabet of lower-case letters and the digits 1 to 9, provided every
    draw is an index into the alphabet (as [Math.floor] of a number below
    its length is). *)
Theorem generateRandomPassword_shape (draw : nat -> nat)
  (Hdraw : forall i, (i < 22)%nat -> (draw i < 35)%nat) :
  String.length (generateRandomPassword draw) = 22%nat
  /\ Forall (fun c => In c (list_ascii_of_string characters))
            (list_ascii_of_string (generateRandomPassword draw)).
Proof.
  destruct (generateRandomPassword_fold draw (seq 0 22) "") as [Hlen Hall].
  { intros i Hi. apply Hdraw. apply in_seq in Hi. lia. }
  split; [exact Hlen|]. apply Hall. constructor.
Qed.


(** ** Requests *)

(** X22: A request goes to the host, port and TLS setting the websocket is
    dialled with, under the scheme http for ws and followed by the path;
    it carries the method and token given, and a body that is absent or
    falsy is sent as the empty object. *)
Theorem makeRequest_target
  (method : Method) (path : string) (body : JsValue) (n : Node)
  (token : option string) (request : Request)
  (Hmade : makeRequest method path body n token = Normal request) :
  exists authority,
    address (options n) = "ws" +:+ authority
    /\ request_url request = "http" +:+ authority +:+ path
    /\ request_method request = method
    /\ request_Authorization request = token
    /\ (ToBoolean body = false -> request_body request = Some "{}"%string).
Proof.
  exists ((if truthy_bool (secure (options n)) then "s" else "") +:+ "://"
          +:+ template_string (host (options n)) +:+ ":"
          +:+ template_number (port (options n)) +:+ "/").
  split; [reflexivity|].
  unfold makeRequest in Hmade.
  destruct (JSON_stringify _) as [text|err] eqn:Hs; [|discriminate].
  injection Hmade as <-. simpl.
  split; [rewrite !append_assoc; reflexivity|].
  split; [reflexivity|]. split; [reflexivity|].
  intros Hfalsy. rewrite Hfalsy in Hs. vm_compute in Hs.
  injection Hs as <-. reflexivity.
Qed.

(** X23: A request is made for every body free of BigInt values; a truthy body
    that holds one throws the serialiser's TypeError and no request is
    made. *)
Theorem makeRequest_serialises
  (method : Method) (path : string) (body : JsValue) (n : Node)
  (token : option string) :
  if has_bigint body && ToBoolean body
  then makeRequest method path body n token
       = Throw (TypeError BigInt_message)
  else exists request, makeRequest method path body n token = Normal request.
Proof.
  unfold makeRequest. destruct (ToBoolean body) eqn:Hb.
  - rewrite andb_true_r. pose proof (JSON_stringify_spec body) as H.
    unfold throws_on_bigint in H. destruct (has_bigint body).
    + rewrite H. reflexivity.
    + destruct H as [o ->]. eauto.
  - rewrite andb_false_r. simpl. eauto.
Qed.

(** ** What the sender writes *)

Lemma pretty_N_go_no_brace (x : N) :
  forall s, startsWith "{" s = false ->
            startsWith "{" (pretty_N_go x s) = false.
Proof.
  induction (N.lt_wf_0 x) as [x _ IH]; intros s Hs.
  assert (x = 0 \/ 0 < x)%N as [->|Hpos] by lia.
  - rewrite pretty_N_go_0. exact Hs.
  - rewrite pretty_N_go_step by exact Hpos. apply IH.
    + apply N.div_lt; [exact Hpos|reflexivity].
    + unfold pretty_N_char. repeat case_match; reflexivity.
Qed.

Lemma number_text_no_brace (n : JsNumber) :
  startsWith "{" (number_text n) = false.
Proof.
  destruct n as [| |[|p|p] safe|text numeral]; try reflexivity.
  - simpl. unfold pretty, pretty_Z, pretty, pretty_positive, pretty, pretty_N.
    case_decide; [reflexivity|]. apply pretty_N_go_no_brace. reflexivity.
  - destruct text as [|c text]; [discriminate|].
    unfold startsWith, number_text. cbn [String.prefix].
    destruct (ascii_dec "{" c) as [<-|_]; [discriminate numeral|reflexivity].
Qed.

(** X24: the sender writes object payloads only: if [send] hands a frame to the
    socket, the Node is connected, the payload is an object, the frame is
    its serialisation and starts with an opening brace, and the write is
    the one effect. *)
Theorem send_writes_only_objects
  (data : JsValue) (n : Node) (e e' : Env) (frame : string)
  (Hwritten : send data n e = (Written frame, e')) :
  connected n = true
  /\ (exists properties, data = JObject properties)
  /\ JSON_stringify data = Normal (Some frame)
  /\ startsWith "{" frame = true
  /\ e' = perform [SocketSend frame] e.
Proof.
  unfold send in Hwritten.
  destruct (JSON_stringify data) as [[text|]|err] eqn:Hs; try discriminate;
    destruct (connected n); try discriminate;
    destruct (ToBoolean data) eqn:Hb; try discriminate.
  simpl in Hwritten.
  destruct (startsWith "{" text) eqn:Hbrace; [|discriminate].
  simpl in Hwritten. injection Hwritten as <- <-.
  split; [reflexivity|]. split; [|repeat split; assumption].
  destruct data as [| |b|num|z|str|sym|f|l|ps]; simpl in Hs;
    try discriminate; eauto; exfalso.
  - injection Hs as <-. destruct b; discriminate.
  - injection Hs as <-. rewrite number_text_no_brace in Hbrace. discriminate.
  - injection Hs as <-. discriminate.
  - destruct (array_items JSON_stringify l); [|discriminate].
    injection Hs as <-. discriminate.
Qed.


(** ** The further properties on concrete states *)

Lemma finishes_drain_witness :
  finishes sample_payload 2
    (sample_player false false (sample_queue [Some "B"; Some "C"] (Some "A")))%string
  = (sample_player false false
       {| Queue.items := []; Queue.current := Some "C";
          Queue.previous := Some "B" |}%string,
     played "g1" "A").
Proof.
  exact (finishes_drain sample_payload 2
           (sample_player false false
              (sample_queue [Some "B"; Some "C"] (Some "A"))%string)
           "A"%string ["B"; "C"]%string eq_refl eq_refl eq_refl eq_refl
           (le_n 2)).
Defined.

Lemma finishes_cycle_witness :
  let r := finishes sample_payload 3
             (sample_player false true
                (sample_queue [Some "B"; Some "C"] (Some "A")))%string in
  Queue.current (Player.queue r.1) = Some "A"%string
  /\ Queue.items (Player.queue r.1) = [Some "B"; Some "C"]%string.
Proof.
  refine (proj2 (proj2 (proj2 (finishes_cycle sample_payload 3
           (sample_player false true
              (sample_queue [Some "B"; Some "C"] (Some "A"))%string)
           "A"%string ["B"; "C"]%string eq_refl eq_refl eq_refl eq_refl
           _ (le_n 3)))) eq_refl).
  discriminate.
Defined.

Lemma finishes_trackRepeat_witness :
  finishes sample_payload 3
    (sample_player true false (sample_queue [Some "B"] (Some "A")))%string
  = ((sample_player true false (sample_queue [Some "B"] (Some "A")))%string,
     played "g1" "A" ++ played "g1" "A" ++ played "g1" "A").
Proof.
  refine (finishes_trackRepeat sample_payload 3
            (sample_player true false
               (sample_queue [Some "B"] (Some "A"))%string)
            "A"%string eq_refl eq_refl _).
  discriminate.
Defined.

Lemma handleTrackEvent_isolated_witness :
  players_get (Some "g2"%string) (players (handleTrackEvent sample_payload sample_env).2)
  = players_get (Some "g2"%string) (players sample_env).
Proof.
  refine (proj1 (handleTrackEvent_isolated sample_payload
                   {| Payload.guild_id := Some "g1"%string |}
                   (Some "g2"%string) sample_env eq_refl _)).
  discriminate.
Defined.

Lemma handleTrackEvent_decision_witness :
  players_get (Some "g1"%string)
    (players (handleTrackEvent sample_payload sample_env).2)
  = Some (sample_player false false
            {| Queue.items := [Some "C"]; Queue.current := Some "B";
               Queue.previous := Some "A" |}%string).
Proof.
  exact (proj1 (proj2 (handleTrackEvent_decision sample_payload
                         {| Payload.guild_id := Some "g1"%string |}
                         (sample_player false false
                            (sample_queue [Some "B"; Some "C"] (Some "A"))%string)
                         sample_env eq_refl eq_refl (or_introl eq_refl)))).
Defined.

Lemma message_unhandled_events_witness :
  message (sample_frame None (Some WSEvents.TRACK_FINISH)) 0%nat
          (sample_node (Some OPEN) 1) sample_session
  = (Normal tt,
     {| session_env :=
          emit (Event.nodeUnknownEvent
                  (Frame.payload (sample_frame None (Some WSEvents.TRACK_FINISH))))
            sample_env;
        session_token := None;
        dispatched :=
          [Dispatch.track
             (Emit (Event.nodeUnknownEvent
                      (Frame.payload
                         (sample_frame None (Some WSEvents.TRACK_FINISH)))))] |}).
Proof.
  refine (message_unhandled_events WSEvents.TRACK_FINISH
            (sample_frame None (Some WSEvents.TRACK_FINISH))
            {| Frame.Data.guild_id := Some "g1"%string;
               Frame.Data.access_token := Some "token"%string;
               Frame.Data.d := None |}
            0%nat (sample_node (Some OPEN) 1) sample_session
            _ eq_refl eq_refl eq_refl).
  simpl. tauto.
Defined.

Lemma message_READY_token_witness :
  session_token
    (message (sample_frame None (Some WSEvents.READY)) 0%nat
             (sample_node (Some OPEN) 1) sample_session).2
  = Some "token"%string.
Proof.
  pose proof (message_READY_token (sample_frame None (Some WSEvents.READY))
                0%nat (sample_node (Some OPEN) 1) sample_session
                GET "status" JUndefined (Some "{}"%string)
                eq_refl eq_refl eq_refl) as H.
  simpl in H. destruct H as [H _]. rewrite H. reflexivity.
Defined.

Lemma message_HELLO_without_socket_witness :
  message (sample_frame (Some 0) (Some WSEvents.READY)) 0%nat
          (sample_node None 1) sample_session
  = (Throw (TypeError null_send_message),
     notice (Dispatch.nodeHello 0%nat) sample_session).
Proof.
  exact (message_HELLO_without_socket
           (sample_frame (Some 0) (Some WSEvents.READY)) 0%nat
           (sample_node None 1) sample_session eq_refl eq_refl).
Defined.

Lemma connect_twice_dials_twice_witness :
  trace (connect 0%nat (connect 0%nat (sample_node None 1) sample_env).1
           (connect 0%nat (sample_node None 1) sample_env).2).2
  = [SocketNew "ws://localhost:3000/"; SocketNew "ws://localhost:3000/"].
Proof.
  exact (proj1 (proj2 (connect_twice_dials_twice 0%nat (sample_node None 1)
                         sample_env eq_refl))).
Defined.

Lemma methods_never_connect_witness :
  connected (connect 0%nat (sample_node (Some CLOSED) 1) sample_env).1 = false.
Proof.
  exact (proj1 (methods_never_connect 0%nat (sample_node (Some CLOSED) 1)
                  sample_env 1006 "" None 0%nat eq_refl)).
Defined.

Lemma sample_env_fresh : timers_fresh sample_env.
Proof. intros id [x Hx]. simpl in Hx. rewrite lookup_empty in Hx. discriminate. Defined.

(** Code 1006 is not the destroy close. *)
Lemma abnormal_close : 1006 <> 1000 \/ ""%string <> "destroy"%string.
Proof. left. discriminate. Defined.

Lemma open_cancels_reconnect_witness :
  timers (open 0%nat
            (close 1006 "" 0%nat (sample_node (Some CLOSED) 1) sample_env).1
            (close 1006 "" 0%nat (sample_node (Some CLOSED) 1) sample_env).2).2
  = ∅.
Proof.
  exact (proj1 (open_cancels_reconnect 0%nat 1006 ""
                  (sample_node (Some CLOSED) 1) sample_env
                  (sample_socket CLOSED) sample_env_fresh
                  abnormal_close eq_refl)).
Defined.

Lemma destroy_leaves_pending_reconnect_witness :
  let closed := close 1006 "" 0%nat (sample_node (Some CLOSED) 1) sample_env in
  let destroyed := destroy 0%nat closed.1 closed.2 in
  reconnectAttempts (timeout_fires 0%nat 0%nat destroyed.1 destroyed.2).2.1 = 2.
Proof.
  exact (proj1 (proj2 (proj2 (proj2
           (destroy_leaves_pending_reconnect 0%nat 1006 ""
              (sample_node (Some CLOSED) 1) sample_env (sample_socket CLOSED) 5
              abnormal_close eq_refl eq_refl eq_refl
              eq_refl))))).
Defined.

Lemma retry_budget_witness :
  reconnectAttempts (Nat.iter 4 (failed_cycle 0%nat) first_drop).1 = 5
  /\ connected (Nat.iter 4 (failed_cycle 0%nat) first_drop).1 = false.
Proof.
  pose proof (retry_budget 0%nat 4 first_drop.1 first_drop.2
                (sample_socket CLOSED) 0%nat
                {| owner := 0%nat; delay := Some 30000 |} 5
                eq_refl eq_refl eq_refl eq_refl eq_refl eq_refl (Z.le_refl 5))
    as (_ & H2 & _ & H4 & _).
  split; [exact H2|exact H4].
Defined.

Lemma destroy_teardown_witness :
  socket (destroy 0%nat (sample_node (Some OPEN) 3) sample_env).1 = None
  /\ reconnectAttempts (destroy 0%nat (sample_node (Some OPEN) 3) sample_env).1 = 1.
Proof.
  pose proof (destroy_teardown 0%nat (sample_node (Some OPEN) 3) sample_env
                eq_refl) as (H1 & H2 & _).
  split; [exact H1|exact H2].
Defined.

Lemma constructor_twice_witness :
  constructor host_only "second" (constructor two_attempts "first" empty_world).2
  = constructor two_attempts "first" empty_world.
Proof.
  exact (proj1 (proj2 (constructor_twice two_attempts host_only
                         "first" "second" empty_world eq_refl eq_refl))).
Defined.

Lemma generateRandomPassword_shape_witness :
  String.length (generateRandomPassword (fun i => i)) = 22%nat.
Proof.
  refine (proj1 (generateRandomPassword_shape (fun i => i) _)).
  intros i Hi. lia.
Defined.


Lemma makeRequest_target_witness :
  exists authority,
    address sample_options = "ws" +:+ authority
    /\ "http://localhost:3000/players" = "http" +:+ authority +:+ "players".
Proof.
  destruct (makeRequest_target GET "players" JUndefined
              (sample_node (Some OPEN) 1) (Some "token"%string)
              {| request_url := "http://localhost:3000/players";
                 request_method := GET;
                 request_body := Some "{}"%string;
                 request_Authorization := Some "token"%string;
                 request_Content_Type := "application/json" |}
              eq_refl)
    as (authority & H1 & H2 & _).
  exists authority. split; assumption.
Defined.

Lemma send_writes_only_objects_witness :
  exists properties,
    JObject [("op"%string, JNumber (Integral 10 eq_refl))] = JObject properties.
Proof.
  exact (proj1 (proj2 (send_writes_only_objects
           (JObject [("op"%string, JNumber (Integral 10 eq_refl))])
           (sample_node (Some OPEN) 1) sample_env
           (perform [SocketSend identify_text] sample_env) identify_text
           eq_refl))).
Defined.

